(** * KG-Agent: the orchestration loop of [framework_name/core.py]

  A shallow embedding of [Memory], [KGExecutor], [Toolbox] and [KGAgent]
  and of the fragment of the Python runtime they rely on ([str.strip],
  [str.upper], [str.startswith], [str.split], dictionaries, exceptions),
  followed by the properties of the loop. *)

From Stdlib Require Import ZArith NArith List String Ascii Lia.
From stdpp Require Import base option list gmap.
Import ListNotations.

Local Open Scope Z_scope.
Local Set Warnings "-register-all".

(** ** The Python runtime fragment *)

Module Py.

(** A Python [str] is a sequence of Unicode code points. *)
Definition codepoint := N.
Abbreviation pystr := (list N).

(** Source literals: ASCII text of the Python file as code points. *)
Definition py (s : string) : pystr :=
  List.map N_of_ascii (list_ascii_of_string s).

(** [str.isspace] on one character, the set used by [strip] and by
    [split] without separator (CPython's [_PyUnicode_IsWhitespace]). *)
Definition isspace (c : codepoint) : bool :=
  ( ((0x09 <=? c) && (c <=? 0x0D)) || ((0x1C <=? c) && (c <=? 0x20))
    || (c =? 0x85) || (c =? 0xA0) || (c =? 0x1680)
    || ((0x2000 <=? c) && (c <=? 0x200A))
    || (c =? 0x2028) || (c =? 0x2029) || (c =? 0x202F) || (c =? 0x205F)
    || (c =? 0x3000) )%N.

(** [s.lstrip()], [s.rstrip()], [s.strip()] *)
Fixpoint lstrip (s : pystr) : pystr :=
  match s with
  | c :: s' => if isspace c then lstrip s' else s
  | [] => []
  end.

Definition rstrip (s : pystr) : pystr := rev (lstrip (rev s)).

Definition strip (s : pystr) : pystr := rstrip (lstrip s).

(** [s.startswith(p)] *)
Fixpoint startswith (s p : pystr) {struct p} : bool :=
  match p, s with
  | [], _ => true
  | _ :: _, [] => false
  | c :: p', d :: s' => (c =? d)%N && startswith s' p'
  end.

(** [s.upper()]: every character is replaced by its full upper-case
    mapping, independently of its neighbours.  On ASCII the mapping is
    ['a'..'z'] to ['A'..'Z'] and the identity elsewhere; outside ASCII it
    is the table of the Unicode database, [unicode_upper], which may
    expand one character into several. *)
Section Upper.
Variable unicode_upper : codepoint -> pystr.

Definition upper_char (c : codepoint) : pystr :=
  if (c <? 0x80)%N
  then (if (0x61 <=? c)%N && (c <=? 0x7A)%N then [(c - 0x20)%N] else [c])
  else unicode_upper c.

Definition upper (s : pystr) : pystr := List.concat (List.map upper_char s).
End Upper.

(** The leading run of non-whitespace characters and what follows it. *)
Fixpoint span_word (s : pystr) : pystr * pystr :=
  match s with
  | c :: s' =>
      if isspace c then ([], s)
      else let '(w, r) := span_word s' in (c :: w, r)
  | [] => ([], [])
  end.

(** [s.split(maxsplit=n)] for [n >= 0], no separator: fields are
    delimited by runs of whitespace; after [n] fields have been cut, the
    whitespace in front of what is left is skipped and the rest, when not
    empty, is the last field, taken as it is. *)
Fixpoint split (maxsplit : nat) (s : pystr) : list pystr :=
  match lstrip s with
  | [] => []
  | c :: r =>
      match maxsplit with
      | O => [c :: r]
      | S n => let '(w, rest) := span_word (c :: r) in w :: split n rest
      end
  end.

(** Values stored in records: [None], booleans, integers, strings, lists
    and dictionaries with string keys (in insertion order). *)
Inductive pyval : Type :=
| VNone
| VBool (b : bool)
| VInt (n : Z)
| VStr (s : pystr)
| VList (l : list pyval)
| VDict (d : list (pystr * pyval)).

Abbreviation pydict := (list (pystr * pyval)).

(** [d.keys()], [key in d], [d.get(key)] *)
Definition dict_keys (d : pydict) : list pystr := List.map fst d.

Definition dict_contains (key : pystr) (d : pydict) : bool :=
  existsb (fun kv => bool_decide (key = fst kv)) d.

Fixpoint dict_get (key : pystr) (d : pydict) : option pyval :=
  match d with
  | (k, v) :: d' => if bool_decide (key = k) then Some v else dict_get key d'
  | [] => None
  end.

(** Exceptions.  [except Exception] catches the instances of [Exception]
    and lets the other instances of [BaseException] ([KeyboardInterrupt],
    [SystemExit], [GeneratorExit]) through.  [KeyError arg] is the
    built-in [KeyError] constructed with the single argument [arg]. *)
Inductive pyexc : Type :=
| KeyError (arg : pystr)
| AttributeError (msg : pystr)
| OtherException (name msg : pystr)
| NonException (name msg : pystr).

Definition isinstance_Exception (e : pyexc) : bool :=
  match e with
  | NonException _ _ => false
  | _ => true
  end.

(** Outcome of a call: a value or a raised exception. *)
Inductive result (A : Type) : Type :=
| Ok (a : A)
| Raise (e : pyexc).
Arguments Ok {A} a.
Arguments Raise {A} e.

End Py.
Import Py.

(** ** [class Memory] *)

Module Memory.

Record t : Type := Build { _store : list pydict }.

(** [Memory()] *)
Definition __init__ : t := Build [].

(** [self._store.append(item)] *)
Definition add (self : t) (item : pydict) : t :=
  Build (_store self ++ [item]).

(** [query(key=None)]: [list(self._store)] when [key is None], else
    [[s for s in self._store if key in s]]. *)
Definition query (self : t) (key : option pystr) : list pydict :=
  match key with
  | None => _store self
  | Some k => List.filter (dict_contains k) (_store self)
  end.

End Memory.

(** ** [class KGExecutor] *)

Module KGExecutor.

Record t : Type := Build { _graph : pyval }.

(** [KGExecutor()] *)
Definition __init__ : t := Build VNone.

(** [load_graph] always raises [NotImplementedError]. *)
Definition load_graph (self : t) (source : pystr) : result unit :=
  Raise (OtherException (py "NotImplementedError") (py "KG loading not implemented")).

(** [query] returns the empty list. *)
Definition query (self : t) (sparql : pystr) : list pydict := [].

(** [execute_program] returns [None]. *)
Definition execute_program (self : t) (program : pyval) : pyval := VNone.

End KGExecutor.

(** ** The collaborators

    The language model and the registered tools are callables supplied by
    the embedding application.  They may keep state of their own and may
    raise; [W] is the type of that state.  They hold no reference to the
    agent's [Memory] or [Toolbox].  Every invocation of a collaborator is
    appended, with its outcome, to [trace], a log kept for the statements
    that count invocations; the program never reads it. *)

Module World.

Inductive event : Type :=
| EvLLM (prompt : pystr) (metadata : pydict) (response : result pystr)
| EvTool (name : pystr) (args : list pyval) (kwargs : pydict) (out : result pyval).

Record env (W : Type) : Type := Build { world : W; trace : list event }.
Arguments Build {W} world trace.
Arguments world {W} e.
Arguments trace {W} e.

(** [Callable[[str, Optional[Dict[str, Any]]], str]] *)
Abbreviation llm_t W := (pystr -> pydict -> W -> result pystr * W)%type.

(** [Callable[..., Any]], called with positional and keyword arguments *)
Abbreviation tool_t W := (list pyval -> pydict -> W -> result pyval * W)%type.

Definition is_llm_call (ev : event) : bool :=
  match ev with EvLLM _ _ _ => true | _ => false end.

Definition llm_calls (tr : list event) : list event := List.filter is_llm_call tr.

End World.
Import World.

(** ** [class Toolbox] *)

Module Toolbox.

Section Toolbox.
Context {W : Type}.

Record t : Type := Build { _tools : gmap pystr (tool_t W) }.

(** [Toolbox()] *)
Definition __init__ : t := Build ∅.

(** [self._tools[name] = fn] *)
Definition register (self : t) (name : pystr) (fn : tool_t W) : t :=
  Build (<[name := fn]> (_tools self)).

(** The parameters that the signature [call(self, name, *args, **kwargs)]
    binds by position: a keyword argument with one of these names would give
    the parameter a second value. *)
Definition bound_parameter (k : pystr) : bool :=
  bool_decide (k = py "self") || bool_decide (k = py "name").

(** The first keyword of a call, in the order of the call, that names such
    a parameter. *)
Definition clash (kwargs : pydict) : option pystr :=
  fst <$> List.find (fun kv => bound_parameter (fst kv)) kwargs.

(** The method called as [toolbox.call(name, *args, **kwargs)], with [args]
    the further positional and [kwargs] the keyword arguments.  A keyword
    named [self] or [name] makes the call itself raise [TypeError], before
    the body is entered.  The body: [KeyError] when [name not in
    self._tools], else the callable [self._tools[name]] applied to the
    arguments.  The result comes with the toolbox after the call. *)
Definition call (self : t) (name : pystr) (args : list pyval) (kwargs : pydict)
    (e : env W) : result pyval * t * env W :=
  match clash kwargs with
  | Some k =>
      (Raise (OtherException
                (py "TypeError")
                (py "Toolbox.call() got multiple values for argument '" ++ k ++ py "'")),
       self, e)
  | None =>
      match _tools self !! name with
      | None =>
          (Raise (KeyError (py "Tool '" ++ name ++ py "' not registered")), self, e)
      | Some fn =>
          let '(r, w') := fn args kwargs (world e) in
          (r, self, World.Build w' (trace e ++ [EvTool name args kwargs r]))
      end
  end.

End Toolbox.
Arguments t W : clear implicits.

End Toolbox.

(** ** [class KGAgent] *)

Module KGAgent.

(** The dictionary returned by [_parse_llm_response]: [{'action': ...,
    'payload': ...}].  The payload is either a string or the dictionary
    [{'tool': tool, 'args': args}]. *)
Inductive payload_t : Type :=
| PText (text : pystr)
| PCall (tool args : pystr).

Record decision : Type := Decision { action : pystr; payload : payload_t }.

Definition payload_value (p : payload_t) : pyval :=
  match p with
  | PText text => VStr text
  | PCall tool args => VDict [(py "tool", VStr tool); (py "args", VStr args)]
  end.

(** The local [state] of [run]: [{'steps': [...], 'memory_summary': None}] *)
Record agent_state : Type :=
  AgentState { steps : list pydict; memory_summary : pyval }.

Definition state_value (state : agent_state) : pyval :=
  VDict [(py "steps", VList (List.map VDict (steps state)));
         (py "memory_summary", memory_summary state)].

(** What an iteration of the loop does next: go on with the following
    iteration, return from [run], or [break]. *)
Inductive control : Type :=
| Continue (state : agent_state)
| Return (v : pyval)
| Break.

Definition summary : pystr := py "Unable to reach final answer within step limit.".

Section Agent.
Context {W : Type}.

(** The Unicode upper-case table outside ASCII, and [repr] (which is also
    [str] on dictionaries), both of the Python runtime. *)
Variable unicode_upper : codepoint -> pystr.
Variable repr : pyval -> pystr.

Record t : Type := Build {
  llm : llm_t W;
  executor : KGExecutor.t;
  toolbox : Toolbox.t W;
  memory : Memory.t;
  max_steps : Z
}.

(** [KGAgent(llm, executor=None, toolbox=None, memory=None, max_steps=10)];
    an omitted argument is [None] here. *)
Definition __init__ (llm : llm_t W) (executor : option KGExecutor.t)
    (toolbox : option (Toolbox.t W)) (memory : option Memory.t)
    (max_steps : option Z) : t :=
  Build llm
        (default KGExecutor.__init__ executor)
        (default Toolbox.__init__ toolbox)
        (default Memory.__init__ memory)
        (default 10 max_steps).

(** Statements of a method: the agent and the collaborators' environment
    are threaded through, and a raised exception ends the sequence. *)
Definition M (A : Type) : Type := t * env W -> result A * (t * env W).

Definition ret {A} (a : A) : M A := fun s => (Ok a, s).

Definition raise {A} (e : pyexc) : M A := fun s => (Raise e, s).

Definition bind {A B} (m : M A) (k : A -> M B) : M B :=
  fun s => match m s with
           | (Ok a, s') => k a s'
           | (Raise e, s') => (Raise e, s')
           end.

Notation "x <- m ;; k" := (bind m (fun x => k))
  (at level 100, m at next level, right associativity).
Notation "m ;;; k" := (bind m (fun _ => k))
  (at level 100, right associativity).

(** [try: m except Exception as e: handler e] *)
Definition try_except {A} (m : M A) (handler : pyexc -> M A) : M A :=
  fun s => match m s with
           | (Raise e, s') =>
               if isinstance_Exception e then handler e s' else (Raise e, s')
           | r => r
           end.

(** [str(e)]; for a [KeyError] with one argument it is the [repr] of the
    argument. *)
Definition str_exc (e : pyexc) : pystr :=
  match e with
  | KeyError arg => repr (VStr arg)
  | AttributeError msg => msg
  | OtherException _ msg => msg
  | NonException _ msg => msg
  end.

(** [self.llm(prompt, metadata)] *)
Definition call_llm (prompt : pystr) (metadata : pydict) : M pystr :=
  fun '(self, e) =>
    let '(r, w') := llm self prompt metadata (world e) in
    (r, (self, World.Build w' (trace e ++ [EvLLM prompt metadata r]))).

(** The agent with its [memory] attribute's object in a new state. *)
Definition set_memory (self : t) (m : Memory.t) : t :=
  Build (llm self) (executor self) (toolbox self) m (max_steps self).

(** [self.memory.add(item)] *)
Definition memory_add (item : pydict) : M unit :=
  fun '(self, e) => (Ok tt, (set_memory self (Memory.add (memory self) item), e)).

(** [self.toolbox.call(name, arg)] *)
Definition toolbox_call (name : pystr) (args : list pyval) (kwargs : pydict)
    : M pyval :=
  fun '(self, e) =>
    let '(r, tb', e') := Toolbox.call (toolbox self) name args kwargs e in
    (r, (Build (llm self) (executor self) tb' (memory self) (max_steps self), e')).

(** [self.executor.execute_program(program)] *)
Definition executor_execute_program (program : pyval) : M pyval :=
  fun '(self, e) => (Ok (KGExecutor.execute_program (executor self) program), (self, e)).

Definition _format_prompt (question : pystr) (state : agent_state) : pystr :=
  py "Question: " ++ question ++ [10%N] ++ py "State: "
    ++ repr (state_value state) ++ [10%N]
    ++ py "Provide next action (tool/program) or final answer.".

Definition _parse_llm_response (response : pystr) : decision :=
  let text := strip response in
  if startswith (upper unicode_upper text) (py "ANSWER:") then
    Decision (py "answer") (PText (strip (drop (length (py "ANSWER:")) text)))
  else if startswith text (py "CALL ") then
    let parts := split 2 text in
    let tool := if decide (1 < length parts)%nat then nth 1 parts [] else [] in
    let args := if decide (2 < length parts)%nat then nth 2 parts [] else [] in
    Decision (py "call_tool") (PCall tool args)
  else
    Decision (py "run_program") (PText text).

(** The body of [for step in range(self.max_steps)]. *)
Definition loop_body (question : pystr) (step : Z) (state : agent_state)
    : M control :=
  let prompt := _format_prompt question state in
  response <- call_llm prompt [(py "step", VInt step)] ;;
  let decision := _parse_llm_response response in
  if bool_decide (action decision = py "answer") then
    let ans := payload_value (payload decision) in
    memory_add [(py "type", VStr (py "final_answer")); (py "answer", ans);
                (py "step", VInt step)] ;;;
    ret (Return ans)
  else if bool_decide (action decision = py "call_tool") then
    match payload decision with
    | PCall tool_name args =>
        out <- try_except
                 (toolbox_call tool_name [VStr args] [])
                 (fun e => ret (VDict [(py "error", VStr (str_exc e))])) ;;
        let state' :=
          AgentState (steps state ++ [[(py "action", VStr (py "call_tool"));
                                       (py "tool", VStr tool_name);
                                       (py "out", out)]])
                     (memory_summary state) in
        memory_add [(py "type", VStr (py "tool")); (py "tool", VStr tool_name);
                    (py "out", out); (py "step", VInt step)] ;;;
        ret (Continue state')
    | PText _ =>
        raise (AttributeError (py "'str' object has no attribute 'get'"))
    end
  else if bool_decide (action decision = py "run_program") then
    let program := payload_value (payload decision) in
    result <- executor_execute_program program ;;
    let state' :=
      AgentState (steps state ++ [[(py "action", VStr (py "run_program"));
                                   (py "program", program);
                                   (py "out", result)]])
                 (memory_summary state) in
    memory_add [(py "type", VStr (py "program")); (py "program", program);
                (py "out", result); (py "step", VInt step)] ;;;
    ret (Continue state')
  else
    ret Break.

(** [for step in range(n)], entered at [step] with [n] iterations left.
    [Some v]: the body returned [v]; [None]: the loop was left at its end
    or by [break]. *)
Fixpoint for_range (question : pystr) (n : nat) (step : Z)
    (state : agent_state) : M (option pyval) :=
  match n with
  | O => ret None
  | S n' =>
      c <- loop_body question step state ;;
      match c with
      | Continue state' => for_range question n' (step + 1) state'
      | Return v => ret (Some v)
      | Break => ret None
      end
  end.

Definition run (question : pystr) : M pyval :=
  fun '(self, e) =>
    (r <- for_range question (Z.to_nat (max_steps self)) 0
                    (AgentState [] VNone) ;;
     match r with
     | Some v => ret v
     | None =>
         memory_add [(py "type", VStr (py "timeout"));
                     (py "summary", VStr summary)] ;;;
         ret (VStr summary)
     end) (self, e).

End Agent.
Arguments t W : clear implicits.
Arguments M W A : clear implicits.

End KGAgent.

(** ** Vocabulary of the statements *)

Module Spec.
Import KGAgent.

(** ASCII case folding, and the comparison of the first characters of a
    text with a prefix up to ASCII case. *)
Definition ascii_fold (c : codepoint) : codepoint :=
  if ((0x41 <=? c) && (c <=? 0x5A))%N then (c + 0x20)%N else c.

Fixpoint ci_startswith (s p : pystr) {struct p} : bool :=
  match p, s with
  | [], _ => true
  | _ :: _, [] => false
  | c :: p', d :: s' => (ascii_fold c =? ascii_fold d)%N && ci_startswith s' p'
  end.

(** The test of the parser for the answer prefix: the upper-cased text
    starts with ["ANSWER:"]. *)
Definition matches_answer_prefix (unicode_upper : codepoint -> pystr)
    (text : pystr) : bool :=
  startswith (upper unicode_upper text) (py "ANSWER:").

(** A character of the source's prefix literals: ASCII and not a
    lower-case letter, so that [upper] leaves it as it is. *)
Definition upper_stable (c : codepoint) : Prop :=
  (c < 0x80)%N /\ ~ (0x61 <= c <= 0x7A)%N.

Definition is_ascii (s : pystr) : Prop := Forall (fun c => (c < 0x80)%N) s.

Definition all_space (s : pystr) : Prop := Forall (fun c => isspace c = true) s.

Definition no_space (s : pystr) : Prop := Forall (fun c => isspace c = false) s.

(** [args] is what is left of a text: empty, or text that starts with a
    character that is not whitespace, after a separating run [ws]. *)
Definition remainder (ws args : pystr) : Prop :=
  match args with
  | [] => ws = []
  | c :: _ => ws <> [] /\ isspace c = false
  end.

(** The fields of a tool call: [text] reads ["CALL"], whitespace, the tool
    name, and then nothing or whitespace and the raw arguments. *)
Definition call_fields (text tool args : pystr) : Prop :=
  exists ws1 ws2,
    text = py "CALL" ++ ws1 ++ tool ++ ws2 ++ args
    /\ ws1 <> [] /\ all_space ws1
    /\ tool <> [] /\ no_space tool
    /\ all_space ws2 /\ remainder ws2 args.

(** The records the loop writes. *)
Definition final_answer_record (ans : pyval) (step : Z) : pydict :=
  [(py "type", VStr (py "final_answer")); (py "answer", ans); (py "step", VInt step)].

Definition tool_record (tool : pystr) (out : pyval) (step : Z) : pydict :=
  [(py "type", VStr (py "tool")); (py "tool", VStr tool); (py "out", out);
   (py "step", VInt step)].

Definition program_record (program out : pyval) (step : Z) : pydict :=
  [(py "type", VStr (py "program")); (py "program", program); (py "out", out);
   (py "step", VInt step)].

Definition timeout_record : pydict :=
  [(py "type", VStr (py "timeout")); (py "summary", VStr summary)].

Definition error_value (msg : pystr) : pyval := VDict [(py "error", VStr msg)].

Definition tool_step (tool : pystr) (out : pyval) : pydict :=
  [(py "action", VStr (py "call_tool")); (py "tool", VStr tool); (py "out", out)].

Definition program_step (program out : pyval) : pydict :=
  [(py "action", VStr (py "run_program")); (py "program", program); (py "out", out)].

(** The [type] of a record written inside the loop. *)
Definition loop_type (rec : pydict) : Prop :=
  dict_get (py "type") rec = Some (VStr (py "final_answer"))
  \/ dict_get (py "type") rec = Some (VStr (py "tool"))
  \/ dict_get (py "type") rec = Some (VStr (py "program")).

(** The records appended to a store that grew from [before] to [after]. *)
Definition records_added (before after : Memory.t) : list pydict :=
  drop (length (Memory._store before)) (Memory._store after).

End Spec.
Import Spec.
Import KGAgent.

(** ** Two statements that the loop does not meet, and sample agents *)

Module Stated.

Section Stated.
Context {W : Type}.
Variable unicode_upper : codepoint -> pystr.
Variable repr : pyval -> pystr.

(** What C1 asks of every record, the [timeout] record included: a record
    added during the run of [question] has an integer [step]. *)
Definition every_record_carries_step (question : pystr) (self : KGAgent.t W)
    (e : env W) : Prop :=
  let '(_, (self', _)) := run unicode_upper repr question (self, e) in
  forall rec, rec ∈ records_added (memory self) (memory self') ->
              exists i, dict_get (py "step") rec = Some (VInt i).

(** What C2 asks of every exception: whatever [Toolbox.call] raises for a
    [call_tool] decision, the iteration records it as the [out] of the step
    and goes on. *)
Definition every_tool_exception_recorded (question : pystr) (step : Z)
    (state : agent_state) (self : KGAgent.t W) (e : env W) : Prop :=
  forall response w1 tool args ex tb e2,
    let prompt := _format_prompt repr question state in
    let metadata := [(py "step", VInt step)] in
    llm self prompt metadata (world e) = (Ok response, w1) ->
    _parse_llm_response unicode_upper response
    = Decision (py "call_tool") (PCall tool args) ->
    Toolbox.call (toolbox self) tool [VStr args] []
      (World.Build w1 (trace e ++ [EvLLM prompt metadata (Ok response)]))
    = (Raise ex, tb, e2) ->
    loop_body unicode_upper repr question step state (self, e)
    = (Ok (Continue (AgentState
                       (steps state ++ [tool_step tool (error_value (str_exc repr ex))])
                       (memory_summary state))),
       (set_memory self
          (Memory.add (memory self)
                      (tool_record tool (error_value (str_exc repr ex)) step)),
        e2)).

End Stated.

End Stated.

(** ** More of the Python runtime: [str.lower] and [in] on strings *)

Module Text.

(** [p in s] for strings: [p] occurs in [s] as a run of consecutive
    characters. *)
Fixpoint contains (s p : pystr) : bool :=
  startswith s p || match s with
                    | [] => false
                    | _ :: s' => contains s' p
                    end.

(** [s.lower()]: every character is replaced by its full lower-case
    mapping.  On ASCII the mapping is ['A'..'Z'] to ['a'..'z'] and the
    identity elsewhere.  The capital sigma becomes one of the two small
    sigmas, the final one or the other, by a test on the characters around
    it, [final_sigma s i] for the sigma of index [i] of [s]; any other
    character outside ASCII is mapped by the table of the Unicode database,
    [unicode_lower], whatever is around it. *)
Section Lower.
Variable unicode_lower : codepoint -> pystr.
Variable final_sigma : pystr -> nat -> bool.

Definition lower_char (whole : pystr) (i : nat) (c : codepoint) : pystr :=
  if (c <? 0x80)%N
  then (if (0x41 <=? c)%N && (c <=? 0x5A)%N then [(c + 0x20)%N] else [c])
  else if (c =? 0x3A3)%N
       then [if final_sigma whole i then 0x3C2%N else 0x3C3%N]
       else unicode_lower c.

(** The characters of index [i] onwards of [whole], which are [s]. *)
Fixpoint lower_from (whole : pystr) (i : nat) (s : pystr) : pystr :=
  match s with
  | [] => []
  | c :: s' => lower_char whole i c ++ lower_from whole (S i) s'
  end.

Definition lower (s : pystr) : pystr := lower_from s 0 s.

End Lower.

(** Equal, or two small sigmas. *)
Definition same_but_sigma (x y : codepoint) : Prop :=
  x = y \/ ((x = 0x3C2%N \/ x = 0x3C3%N) /\ (y = 0x3C2%N \/ y = 0x3C3%N)).

Definition no_sigma (p : pystr) : Prop :=
  Forall (fun c => c <> 0x3C2%N /\ c <> 0x3C3%N) p.

End Text.
Import Text.

(** ** [dummy_llm] of [core.py] *)

Module Dummy.

Section Dummy.
Context {W : Type}.
Variable unicode_lower : codepoint -> pystr.
Variable final_sigma : pystr -> nat -> bool.

(** [dummy_llm(prompt, metadata=None)] *)
Definition dummy_llm : llm_t W :=
  fun prompt metadata w =>
    if contains (lower unicode_lower final_sigma prompt) (py "actor") then
      (Ok (py "ANSWER: The actor is Tom Hanks."), w)
    else if contains (lower unicode_lower final_sigma prompt) (py "multi") then
      (Ok (py "CALL retrieve_facts " ++ [34%N] ++ py "actor Tom Hanks" ++ [34%N]), w)
    else
      (Ok (py "RUN program: FIND_PATH(subject, predicate, object)"), w).

End Dummy.

End Dummy.

(** ** [examples/basic.py] *)

Module Basic.

Section Basic.
Context {W : Type}.
Variable unicode_lower : codepoint -> pystr.
Variable final_sigma : pystr -> nat -> bool.

(** The message of the [TypeError] that a call raises when its arguments
    do not fit the parameters of the callable. *)
Variable call_error : list pyval -> pydict -> pystr.

(** [dummy_llm(prompt, metadata=None)] *)
Definition dummy_llm : llm_t W :=
  fun prompt metadata w =>
    if contains (lower unicode_lower final_sigma prompt) (py "retrieve") then
      (Ok (py "CALL retrieve_facts actor:Tom_Hanks"), w)
    else
      (Ok (py "ANSWER: Demo answer produced by dummy LLM."), w).

(** What [retrieve_facts_stub] returns for the argument [a]. *)
Definition facts (a : pyval) : pyval :=
  VDict [(py "query", a);
         (py "facts", VList [VStr (py "Tom Hanks -> actor");
                             VStr (py "Tom Hanks -> born_in Concord")])].

(** [def retrieve_facts_stub(args)]: the parameter is given by position or
    by keyword. *)
Definition retrieve_facts_stub : tool_t W :=
  fun args kwargs w =>
    match args, kwargs with
    | [a], [] => (Ok (facts a), w)
    | [], [(k, a)] =>
        if bool_decide (k = py "args") then (Ok (facts a), w)
        else (Raise (OtherException (py "TypeError") (call_error args kwargs)), w)
    | _, _ => (Raise (OtherException (py "TypeError") (call_error args kwargs)), w)
    end.

(** The agent that [main] builds, and its question. *)
Definition main_agent : KGAgent.t W :=
  __init__ dummy_llm (Some KGExecutor.__init__)
           (Some (Toolbox.register Toolbox.__init__ (py "retrieve_facts")
                                   retrieve_facts_stub))
           (Some Memory.__init__) None.

Definition main_question : pystr :=
  py "Who is the actor that starred in the movie Forrest Gump?".

(** The tables of the runtime that [run] and [print] use; [str] of a
    string is the string, [str] of another value is its [repr]. *)
Variable unicode_upper : codepoint -> pystr.
Variable repr : pyval -> pystr.

Definition str (v : pyval) : pystr :=
  match v with
  | VStr s => s
  | _ => repr v
  end.

(** [main()]: what it prints, or the exception that ends it. *)
Definition main (e : env W) : result pystr * env W :=
  match run unicode_upper repr main_question (main_agent, e) with
  | (Ok answer, (agent, e')) =>
      (Ok (py "Final answer: " ++ str answer ++ [10%N]
           ++ [10%N] ++ py "Memory contents:" ++ [10%N]
           ++ List.concat (List.map (fun item => str (VDict item) ++ [10%N])
                                    (Memory.query (memory agent) None))),
       e')
  | (Raise ex, (_, e')) => (Raise ex, e')
  end.

End Basic.

End Basic.

Module Demo.

(** Stand-ins for the two tables of the runtime. *)
Definition upper_id : codepoint -> pystr := fun c => [c].
Definition repr_stub : pyval -> pystr := fun _ => [].

(** A language model that always gives the same text. *)
Definition llm_says (text : pystr) : llm_t unit := fun _ _ w => (Ok text, w).

(** A tool that is interrupted from the keyboard. *)
Definition interrupted_tool : tool_t unit :=
  fun _ _ w => (Raise (NonException (py "KeyboardInterrupt") []), w).

Definition env0 : env unit := World.Build tt [].

Definition program_text : pystr :=
  py "RUN program: FIND_PATH(subject, predicate, object)".

Definition program_agent (max_steps : Z) : KGAgent.t unit :=
  __init__ (llm_says program_text) None None None (Some max_steps).

Definition answer_agent : KGAgent.t unit :=
  __init__ (llm_says (py "ANSWER: demo")) None None None None.

Definition missing_tool_agent : KGAgent.t unit :=
  __init__ (llm_says (py "CALL missing_tool x")) None None None None.

Definition interrupted_agent : KGAgent.t unit :=
  __init__ (llm_says (py "CALL search x")) None
           (Some (Toolbox.register Toolbox.__init__ (py "search") interrupted_tool))
           None None.

(** The toolbox of [examples/basic.py] and a language model that asks for
    its tool. *)
Definition facts_agent : KGAgent.t unit :=
  __init__ (llm_says (py "CALL retrieve_facts actor:Tom_Hanks")) None
           (Some (Toolbox.register Toolbox.__init__ (py "retrieve_facts")
                    (Basic.retrieve_facts_stub (fun _ _ => []))))
           None None.

(** Stand-ins for the lower-case table, the test for the final sigma and
    the message of a call that does not fit; a [repr] that is right on the
    initial state of a run. *)
Definition lower_id : codepoint -> pystr := fun c => [c].
Definition no_final_sigma : pystr -> nat -> bool := fun _ _ => false.
Definition no_call_error : list pyval -> pydict -> pystr := fun _ _ => [].

Definition repr_initial : pyval -> pystr :=
  fun v => match v with
           | VDict [(_, VList []); (_, VNone)] =>
               py "{'steps': [], 'memory_summary': None}"
           | _ => []
           end.

(** An agent with the toy language model of [core.py]. *)
Definition core_agent : KGAgent.t unit :=
  __init__ (Dummy.dummy_llm lower_id no_final_sigma) None None None None.

End Demo.

(** ** Vocabulary of the statements on the log of invocations *)

Module Log.

Definition is_tool_call (ev : event) : bool :=
  match ev with EvTool _ _ _ _ => true | _ => false end.

Definition tool_calls (tr : list event) : list event := List.filter is_tool_call tr.

Section Log.
Context {W : Type}.

(** The invocation [ev] is one that the agent [self] can make: of its
    language model, or of a callable bound in its toolbox under the name
    invoked, with one positional argument, a string, and no keyword
    argument. *)
Definition genuine (self : KGAgent.t W) (ev : event) : Prop :=
  match ev with
  | EvLLM prompt metadata response =>
      exists w w', llm self prompt metadata w = (response, w')
  | EvTool name args kwargs out =>
      exists a fn w w',
        args = [VStr a] /\ kwargs = []
        /\ Toolbox._tools (toolbox self) !! name = Some fn
        /\ fn args kwargs w = (out, w')
  end.

End Log.

(** The invocation [ev] ended with the exception [ex], and [except
    Exception] does not stop it. *)
Definition raised_by (ex : pyexc) (ev : event) : Prop :=
  match ev with
  | EvLLM _ _ response => response = Raise ex
  | EvTool _ _ _ out => out = Raise ex /\ isinstance_Exception ex = false
  end.

End Log.
Import Log.

(** ** The record of an iteration *)

Module Records.

(** [rec] is the record that iteration [step] writes for the decision
    parsed from [response]: the [final_answer] record of the payload, a
    [tool] record of the tool named, or the [program] record of the payload
    with the [None] of the executor. *)
Definition iteration_record (unicode_upper : codepoint -> pystr)
    (response : pystr) (step : Z) (rec : pydict) : Prop :=
  let d := _parse_llm_response unicode_upper response in
  (action d = py "answer"
   /\ rec = final_answer_record (payload_value (payload d)) step)
  \/ (action d = py "call_tool"
      /\ exists tool args out,
           payload d = PCall tool args /\ rec = tool_record tool out step)
  \/ (action d = py "run_program"
      /\ rec = program_record (payload_value (payload d)) VNone step).

End Records.
Import Records.

(** ** Two more statements that the code does not meet *)

Module AsStated.

(** The last part of C3, with the comparison up to ASCII case for its
    condition: a trimmed text that neither matches ["ANSWER:"] up to case
    nor starts with ["CALL "] is a program. *)
Definition other_text_is_program (unicode_upper : codepoint -> pystr)
    (response : pystr) : Prop :=
  ci_startswith (strip response) (py "ANSWER:") = false ->
  startswith (strip response) (py "CALL ") = false ->
  _parse_llm_response unicode_upper response
  = Decision (py "run_program") (PText (strip response)).

(** The first part of C7 for every call: a name without binding makes
    [call] raise the [KeyError]. *)
Definition unregistered_call_raises_key_error {W} (self : Toolbox.t W)
    (name : pystr) (args : list pyval) (kwargs : pydict) (e : env W) : Prop :=
  Toolbox._tools self !! name = None ->
  exists msg, (Toolbox.call self name args kwargs e).1.1 = Raise (KeyError msg).

(** A table that is that of Unicode on the long s, U+017F, whose upper
    case is [S]. *)
Definition upper_long_s : codepoint -> pystr :=
  fun c => if (c =? 0x17F)%N then [0x53%N] else [c].

End AsStated.

(** * Properties *)

(** ** Memory *)

Lemma dict_contains_keys (key : pystr) (d : pydict) :
  dict_contains key d = true <-> key ∈ dict_keys d.
Proof.
  unfold dict_contains, dict_keys. induction d as [|[k v] d IH]; simpl.
  - split; [discriminate | intros H; inversion H].
  - rewrite orb_true_iff, IH, bool_decide_eq_true, elem_of_cons. tauto.
Qed.

Lemma filter_sublist {A} (f : A -> bool) (l : list A) :
  sublist (List.filter f l) l.
Proof.
  induction l as [|x l IH]; simpl; [constructor|].
  destruct (f x); by constructor.
Qed.

Lemma filter_greatest {A} (f : A -> bool) (l k : list A) :
  sublist k l -> Forall (fun x => f x = true) k -> sublist k (List.filter f l).
Proof.
  intros Hsub. induction Hsub as [|x k l Hsub IH|x k l Hsub IH]; intros Hall; simpl.
  - constructor.
  - inversion Hall as [|? ? Hx Hk]; subst. rewrite Hx. constructor. by apply IH.
  - destruct (f x); [constructor|]; by apply IH.
Qed.

(** C8. After [add(item)], [query()] ends with [item] and is one longer
    than before.  [query(key)] is the sub-sequence of the stored records,
    in their order, of exactly those that have [key] among their own keys:
    every returned record has the key, and every sub-sequence of the log
    whose records all have the key is contained in it, so none is left out;
    whether a record is returned depends on its keys alone, never on its
    values. *)
Theorem memory_add_then_query (m : Memory.t) (item : pydict) (key : pystr) :
  last (Memory.query (Memory.add m item) None) = Some item
  /\ length (Memory.query (Memory.add m item) None)
     = S (length (Memory.query m None))
  /\ sublist (Memory.query m (Some key)) (Memory.query m None)
  /\ Forall (fun rec => key ∈ dict_keys rec) (Memory.query m (Some key))
  /\ (forall l, sublist l (Memory.query m None) ->
                Forall (fun rec => key ∈ dict_keys rec) l ->
                sublist l (Memory.query m (Some key)))
  /\ (forall rec rec', dict_keys rec = dict_keys rec' ->
                       dict_contains key rec = dict_contains key rec').
Proof.
  destruct m as [store]. cbn [Memory.query Memory.add Memory._store].
  repeat split.
  - apply last_snoc.
  - rewrite length_app. simpl. lia.
  - apply filter_sublist.
  - apply Forall_forall. intros rec Hin.
    apply list_elem_of_In, filter_In in Hin as [_ Hin].
    by apply dict_contains_keys.
  - intros l Hsub Hall. apply filter_greatest; [done|].
    eapply Forall_impl; [exact Hall|]. intros rec Hrec.
    by apply dict_contains_keys.
  - intros rec rec' Hkeys.
    destruct (dict_contains key rec) eqn:E1, (dict_contains key rec') eqn:E2; try done.
    + apply dict_contains_keys in E1. rewrite Hkeys in E1.
      apply dict_contains_keys in E1. congruence.
    + apply dict_contains_keys in E2. rewrite <- Hkeys in E2.
      apply dict_contains_keys in E2. congruence.
Qed.

(** ** Strings *)

Lemma lstrip_decomp (s : pystr) :
  exists ws, s = ws ++ lstrip s /\ all_space ws.
Proof.
  induction s as [|c s (ws & Hs & Hws)]; simpl.
  - exists []. split; [done | constructor].
  - destruct (isspace c) eqn:Hc.
    + exists (c :: ws). split; [by rewrite <- app_comm_cons, <- Hs | by constructor].
    + exists []. split; [done | constructor].
Qed.

Lemma lstrip_head (s : pystr) c r : lstrip s = c :: r -> isspace c = false.
Proof.
  induction s as [|d s IH]; simpl; [discriminate|].
  destruct (isspace d) eqn:Hd; [exact IH|]. intros [= -> _]. exact Hd.
Qed.

Lemma strip_last (s l : pystr) c : strip s = l ++ [c] -> isspace c = false.
Proof.
  unfold strip, rstrip. intros H.
  apply (f_equal (@rev N)) in H. rewrite rev_involutive, rev_app_distr in H.
  simpl in H. by apply lstrip_head in H.
Qed.

Lemma all_space_last (ws l : pystr) c :
  all_space ws -> ws = l ++ [c] -> isspace c = true.
Proof.
  intros Hws ->. apply Forall_app in Hws as [_ Hc]. by inversion Hc.
Qed.

Lemma span_word_spec (s w r : pystr) :
  span_word s = (w, r) ->
  s = w ++ r /\ no_space w /\ (r = [] \/ exists c r', r = c :: r' /\ isspace c = true).
Proof.
  revert w r. induction s as [|c s IH]; simpl; intros w r.
  - intros [= <- <-]. repeat split; [constructor | by left].
  - destruct (isspace c) eqn:Hc.
    + intros [= <- <-]. repeat split; [constructor | right; eauto].
    + destruct (span_word s) as [w' r'] eqn:Hs. intros [= <- <-].
      destruct (IH w' r' eq_refl) as (-> & Hw & Hr).
      repeat split; [by constructor | exact Hr].
Qed.

Lemma startswith_app (s p : pystr) :
  startswith s p = true -> exists r, s = p ++ r.
Proof.
  revert s. induction p as [|c p IH]; intros s; simpl.
  - intros _. by exists s.
  - destruct s as [|d s]; [discriminate|].
    intros [Hcd Hs]%andb_true_iff. apply N.eqb_eq in Hcd as ->.
    destruct (IH s Hs) as [r ->]. by exists r.
Qed.

Section UpperFacts.
Variable unicode_upper : codepoint -> pystr.

Lemma upper_char_ci (c d : codepoint) :
  upper_stable c -> ascii_fold c = ascii_fold d ->
  upper_char unicode_upper d = [c].
Proof.
  unfold upper_stable, upper_char, ascii_fold. intros [Hc Hlow].
  repeat match goal with
         | |- context [(?a <=? ?b)%N] => destruct (N.leb_spec a b)
         | |- context [(?a <? ?b)%N] => destruct (N.ltb_spec a b)
         end; simpl; intros Heq; try (f_equal; lia); lia.
Qed.

Lemma upper_char_ascii (c d : codepoint) :
  upper_stable c -> (d < 0x80)%N ->
  exists d', upper_char unicode_upper d = [d']
             /\ (c =? d')%N = (ascii_fold c =? ascii_fold d)%N.
Proof.
  unfold upper_stable, upper_char, ascii_fold. intros [Hc Hlow] Hd.
  repeat match goal with
         | |- context [(?a <=? ?b)%N] => destruct (N.leb_spec a b)
         | |- context [(?a <? ?b)%N] => destruct (N.ltb_spec a b)
         end; simpl; try lia;
    (eexists; split; [reflexivity|]);
    repeat match goal with
           | |- context [(?a =? ?b)%N] => destruct (N.eqb_spec a b)
           end; try reflexivity; lia.
Qed.

Lemma upper_cons c (s : pystr) :
  upper unicode_upper (c :: s)
  = upper_char unicode_upper c ++ upper unicode_upper s.
Proof. reflexivity. Qed.

Lemma ci_startswith_upper (s p : pystr) :
  Forall upper_stable p -> ci_startswith s p = true ->
  startswith (upper unicode_upper s) p = true.
Proof.
  intros Hp. revert s. induction Hp as [|c p Hc Hp IH]; intros s; [done|].
  destruct s as [|d s]; simpl; [discriminate|].
  intros [Hcd Hs]%andb_true_iff. apply N.eqb_eq in Hcd.
  rewrite upper_cons, (upper_char_ci c d Hc Hcd). simpl.
  rewrite N.eqb_refl. simpl. by apply IH.
Qed.

(** On ASCII text the parser's test is the comparison up to ASCII case. *)
Lemma matches_answer_prefix_ascii (text : pystr) :
  is_ascii text ->
  matches_answer_prefix unicode_upper text = ci_startswith text (py "ANSWER:").
Proof.
  unfold matches_answer_prefix.
  assert (Hp : Forall upper_stable (py "ANSWER:")).
  { repeat constructor; simpl; lia. }
  revert Hp. generalize (py "ANSWER:") as p. intros p Hp. revert text.
  induction Hp as [|c p Hc Hp IH]; intros text Htext; [done|].
  destruct text as [|d s]; [done|].
  inversion Htext as [|? ? Hd Hs]; subst.
  destruct (upper_char_ascii c d Hc Hd) as (d' & Hup & Heq).
  rewrite upper_cons, Hup. simpl. rewrite Heq. f_equal. by apply IH.
Qed.

Lemma upper_app (s t : pystr) :
  upper unicode_upper (s ++ t) = upper unicode_upper s ++ upper unicode_upper t.
Proof. unfold upper. by rewrite List.map_app, List.concat_app. Qed.

Lemma startswith_self_app (p y : pystr) : startswith (p ++ y) p = true.
Proof. induction p as [|c p IH]; simpl; [done|]. by rewrite N.eqb_refl. Qed.

(** When the first characters of a text are ASCII, the parser's test is
    the comparison up to ASCII case. *)
Lemma startswith_upper_ascii (p text : pystr) :
  Forall upper_stable p -> is_ascii (take (length p) text) ->
  startswith (upper unicode_upper text) p = ci_startswith text p.
Proof.
  intros Hp. revert text. induction Hp as [|c p Hc Hp IH]; intros text Htext; [done|].
  destruct text as [|d s]; [done|]. simpl in Htext.
  inversion Htext as [|? ? Hd Hs]; subst.
  destruct (upper_char_ascii c d Hc Hd) as (d' & Hup & Heq).
  rewrite upper_cons, Hup. simpl. rewrite Heq. f_equal. by apply IH.
Qed.

End UpperFacts.

Lemma strip_no_trailing_space (s pre ws : pystr) :
  strip s = pre ++ ws -> all_space ws -> ws = [].
Proof.
  intros Hs Hws. destruct ws as [|c ws]; [done|]. exfalso.
  destruct (exists_last (l := c :: ws)) as (ws' & a & Heq); [done|].
  rewrite Heq, app_assoc in Hs. apply strip_last in Hs.
  pose proof (all_space_last _ _ _ Hws Heq). congruence.
Qed.

Lemma split_call (r : pystr) :
  split 2 (py "CALL " ++ r) = py "CALL" :: split 1 r.
Proof. reflexivity. Qed.

Lemma split_1 (s : pystr) :
  split 1 s = match lstrip s with
              | [] => []
              | c :: r => let '(w, rest) := span_word (c :: r) in w :: split 0 rest
              end.
Proof. reflexivity. Qed.

Lemma split_0 (s : pystr) :
  split 0 s = match lstrip s with [] => [] | c :: r => [c :: r] end.
Proof. reflexivity. Qed.

(** ** The parser *)

Section Parser.
Variable unicode_upper : codepoint -> pystr.

Abbreviation parse := (_parse_llm_response unicode_upper).

(** The fields of a text that starts with ["CALL "] and is the result of
    [strip]. *)
Lemma split_call_fields (response r : pystr) :
  strip response = py "CALL " ++ r ->
  exists tool args,
    call_fields (strip response) tool args
    /\ split 2 (strip response)
       = py "CALL" :: tool :: match args with [] => [] | _ :: _ => [args] end.
Proof.
  intros Htext. rewrite Htext, split_call, split_1.
  destruct (lstrip_decomp r) as (ws & Hr & Hws).
  destruct (lstrip r) as [|c r1] eqn:Hl.
  { exfalso. rewrite app_nil_r in Hr. subst r.
    assert (Hsp : all_space (0x20%N :: ws)) by by constructor.
    change (py "CALL " ++ ws) with (py "CALL" ++ 0x20%N :: ws) in Htext.
    by pose proof (strip_no_trailing_space _ _ _ Htext Hsp). }
  pose proof (lstrip_head _ _ _ Hl) as Hc.
  destruct (span_word (c :: r1)) as [tool tail] eqn:Hsp.
  destruct (span_word_spec _ _ _ Hsp) as (Hcr & Htool & Htail).
  assert (Hne : tool <> []).
  { intros ->. simpl in Hcr. subst tail.
    destruct Htail as [|(c' & r' & [= <- <-] & Hc')]; [done | congruence]. }
  destruct (lstrip_decomp tail) as (ws2 & Htl & Hws2).
  exists tool, (lstrip tail). split.
  - exists (0x20%N :: ws), ws2. repeat split; try done.
    + rewrite Hr, Hcr, <- Htl. reflexivity.
    + by constructor.
    + destruct (lstrip tail) as [|a args'] eqn:Hlt; simpl.
      * rewrite app_nil_r in Htl. subst tail.
        eapply (strip_no_trailing_space response (py "CALL " ++ ws ++ tool));
          [|exact Hws2].
        rewrite Htext, Hr, Hcr. by rewrite <- !app_assoc.
      * pose proof (lstrip_head _ _ _ Hlt) as Ha. split; [|done].
        intros ->. simpl in Htl. subst tail.
        destruct Htail as [|(c' & r' & [= <- <-] & Hc')]; [done | congruence].
  - rewrite split_0. by destruct (lstrip tail).
Qed.

(** The three shapes of a decision. *)
Lemma parse_cases (response : pystr) :
  (exists text, parse response = Decision (py "answer") (PText text))
  \/ (exists tool args, parse response = Decision (py "call_tool") (PCall tool args))
  \/ (exists text, parse response = Decision (py "run_program") (PText text)).
Proof.
  unfold _parse_llm_response.
  destruct (startswith (upper _ _) _); [left; eauto|].
  destruct (startswith _ _); [right; left; eauto | right; right; eauto].
Qed.

(** C3 (amended). When the trimmed text starts with ["CALL "], [split]
    cuts it into at most three fields, ["CALL"], the tool name and, when
    something follows, the rest of the text from its first character that is
    not whitespace, taken whole; the decision is [call_tool] with the tool
    name and that rest (empty when nothing follows).  Any other trimmed text
    whose first seven characters are ASCII and do not match ["ANSWER:"] up
    to case is a program: the decision is [run_program] with the whole
    trimmed text; so is, in general, any other text that [upper] does not
    turn into one that starts with ["ANSWER:"].  A text whose first seven
    characters [upper] turns into ["ANSWER:"], ASCII letters or not, is an
    answer, not a program. *)
Theorem parse_call_or_program (response : pystr) :
  (startswith (strip response) (py "CALL ") = true ->
     (length (split 2 (strip response)) <= 3)%nat
     /\ exists tool args,
          call_fields (strip response) tool args
          /\ split 2 (strip response)
             = py "CALL" :: tool :: match args with [] => [] | _ :: _ => [args] end
          /\ parse response = Decision (py "call_tool") (PCall tool args))
  /\ (is_ascii (take 7 (strip response)) ->
      ci_startswith (strip response) (py "ANSWER:") = false ->
      startswith (strip response) (py "CALL ") = false ->
      parse response = Decision (py "run_program") (PText (strip response)))
  /\ (matches_answer_prefix unicode_upper (strip response) = false ->
      startswith (strip response) (py "CALL ") = false ->
      parse response = Decision (py "run_program") (PText (strip response)))
  /\ (forall prefix rest,
        strip response = prefix ++ rest -> length prefix = 7%nat ->
        upper unicode_upper prefix = py "ANSWER:" ->
        parse response = Decision (py "answer") (PText (strip rest))).
Proof.
  assert (Hstable : Forall upper_stable (py "ANSWER:"))
    by (repeat constructor; simpl; lia).
  split_and!.
  - intros Hcall. destruct (startswith_app _ _ Hcall) as [r Hr].
    assert (Hans : startswith (upper unicode_upper (strip response)) (py "ANSWER:")
                   = false) by (by rewrite Hr).
    destruct (split_call_fields response r Hr) as (tool & args & Hf & Hsplit).
    split; [rewrite Hsplit; destruct args; simpl; lia|].
    exists tool, args. repeat split; [exact Hf | exact Hsplit |].
    unfold _parse_llm_response. rewrite Hans, Hcall, Hsplit.
    destruct args; simpl; repeat case_decide; (reflexivity || lia).
  - intros Hascii Hci Hcall. unfold _parse_llm_response.
    by rewrite (startswith_upper_ascii unicode_upper _ _ Hstable Hascii), Hci, Hcall.
  - unfold matches_answer_prefix. intros Hans Hcall.
    unfold _parse_llm_response. by rewrite Hans, Hcall.
  - intros prefix rest Htext Hlen Hup. unfold _parse_llm_response.
    rewrite Htext, upper_app, Hup, startswith_self_app.
    by rewrite drop_app_length'.
Qed.

(** C4. When the first seven characters of the trimmed text are
    ["ANSWER:"] up to case, the decision is [answer] and its payload is the
    text after these seven characters, trimmed.  The test comes first:
    whatever follows the prefix, the decision is not a tool call. *)
Theorem parse_answer (response : pystr) :
  ci_startswith (strip response) (py "ANSWER:") = true ->
  parse response
  = Decision (py "answer") (PText (strip (drop 7 (strip response))))
  /\ action (parse response) <> py "call_tool".
Proof.
  intros Hci.
  assert (Hup : startswith (upper unicode_upper (strip response)) (py "ANSWER:") = true).
  { apply ci_startswith_upper; [|exact Hci]. repeat constructor; simpl; lia. }
  unfold _parse_llm_response. rewrite Hup. split; [reflexivity|].
  simpl. discriminate.
Qed.

End Parser.

(** The tool call of the spec's example, and a program text. *)
Lemma parse_call_or_program_witness :
  (startswith (strip (py "CALL toolA some args here")) (py "CALL ") = true
   /\ _parse_llm_response (fun c => [c]) (py "CALL toolA some args here")
      = Decision (py "call_tool") (PCall (py "toolA") (py "some args here")))
  /\ (is_ascii (take 7 (strip (py " find_path(a, b) ")))
      /\ ci_startswith (strip (py " find_path(a, b) ")) (py "ANSWER:") = false
      /\ startswith (strip (py " find_path(a, b) ")) (py "CALL ") = false
      /\ _parse_llm_response (fun c => [c]) (py " find_path(a, b) ")
         = Decision (py "run_program") (PText (py "find_path(a, b)"))).
Proof.
  assert (Hascii : is_ascii (take 7 (strip (py " find_path(a, b) "))))
    by (vm_compute; repeat constructor).
  split; [split; [reflexivity|] | split_and!; [exact Hascii | reflexivity | reflexivity |]].
  - destruct (parse_call_or_program (fun c => [c]) (py "CALL toolA some args here"))
      as [Hcall _].
    destruct (Hcall eq_refl) as (_ & tool & args & _ & Hsplit & ->).
    vm_compute in Hsplit. injection Hsplit as <- Hargs.
    destruct args; [discriminate|]. injection Hargs as <- <-. reflexivity.
  - destruct (parse_call_or_program (fun c => [c]) (py " find_path(a, b) "))
      as (_ & Hprogram & _).
    exact (Hprogram Hascii eq_refl eq_refl).
Defined.

(** With the long s for its [s], ["answer: hi"] is an answer, on every
    table that has the upper case of the long s. *)
Lemma long_s_answer (unicode_upper : codepoint -> pystr) :
  unicode_upper 0x17F%N = [0x53%N] ->
  _parse_llm_response unicode_upper (py "an" ++ [0x17F%N] ++ py "wer: hi")
  = Decision (py "answer") (PText (py "hi")).
Proof.
  intros Hs. unfold _parse_llm_response.
  change (strip (py "an" ++ [0x17F%N] ++ py "wer: hi"))
    with (py "an" ++ [0x17F%N] ++ py "wer: hi").
  assert (Hup : startswith (upper unicode_upper (py "an" ++ [0x17F%N] ++ py "wer: hi"))
                           (py "ANSWER:") = true).
  { unfold upper. simpl. unfold upper_char at 1. simpl. rewrite Hs. reflexivity. }
  rewrite Hup. reflexivity.
Qed.

(** C3 as stated fails there: the text is no ["ANSWER:"] up to ASCII case
    and no tool call, and it is not parsed as a program. *)
Lemma long_s_answer_is_not_program :
  ~ AsStated.other_text_is_program AsStated.upper_long_s
      (py "an" ++ [0x17F%N] ++ py "wer: hi").
Proof.
  unfold AsStated.other_text_is_program. intros H.
  specialize (H eq_refl eq_refl).
  rewrite (long_s_answer AsStated.upper_long_s eq_refl) in H. discriminate H.
Qed.

(** An answer in lower case that goes on with [CALL]. *)
Lemma parse_answer_witness :
  ci_startswith (strip (py "  answer: CALL me Tom Hanks. ")) (py "ANSWER:") = true
  /\ _parse_llm_response (fun c => [c]) (py "  answer: CALL me Tom Hanks. ")
     = Decision (py "answer") (PText (py "CALL me Tom Hanks.")).
Proof.
  split; [reflexivity|].
  destruct (parse_answer (fun c => [c]) (py "  answer: CALL me Tom Hanks. ") eq_refl)
    as [-> _].
  reflexivity.
Defined.

(** ** The toolbox *)

Section ToolboxFacts.
Context {W : Type}.

Lemma toolbox_call_post (self tb : Toolbox.t W) name args kwargs (e e2 : env W) tr :
  Toolbox.call self name args kwargs e = (tr, tb, e2) ->
  tb = self /\ exists evs, trace e2 = trace e ++ evs /\ llm_calls evs = [].
Proof.
  unfold Toolbox.call. destruct (Toolbox.clash kwargs) as [k|].
  { intros [= <- <- <-]. split; [done|]. exists []. by rewrite app_nil_r. }
  destruct (Toolbox._tools self !! name) as [fn|].
  - destruct (fn args kwargs (world e)) as [r w']. intros [= <- <- <-].
    split; [done|]. by eexists [_].
  - intros [= <- <- <-]. split; [done|]. exists []. by rewrite app_nil_r.
Qed.

Lemma clash_none (kwargs : pydict) :
  Toolbox.clash kwargs = None
  <-> ((py "self" ∉ dict_keys kwargs) /\ (py "name" ∉ dict_keys kwargs)).
Proof.
  unfold Toolbox.clash, dict_keys. induction kwargs as [|[k v] kwargs IH]; simpl.
  - split; [|done]. intros _. split; intros H; inversion H.
  - unfold Toolbox.bound_parameter at 1. simpl.
    rewrite !not_elem_of_cons.
    destruct (bool_decide_reflect (k = py "self")) as [->|Hs]; simpl.
    { split; [done | intros [[? _] _]; done]. }
    destruct (bool_decide_reflect (k = py "name")) as [->|Hn]; simpl.
    { split; [done | intros [_ [? _]]; done]. }
    rewrite IH. intuition congruence.
Qed.

Lemma toolbox_call_cases (self tb : Toolbox.t W) name args (e e2 : env W) tr :
  Toolbox.call self name args [] e = (tr, tb, e2) ->
  (Toolbox._tools self !! name = None
   /\ tr = Raise (KeyError (py "Tool '" ++ name ++ py "' not registered"))
   /\ e2 = e)
  \/ (exists fn, Toolbox._tools self !! name = Some fn
                 /\ fn args [] (world e) = (tr, world e2)
                 /\ trace e2 = trace e ++ [EvTool name args [] tr]).
Proof.
  unfold Toolbox.call. simpl. destruct (Toolbox._tools self !! name) as [fn|].
  - destruct (fn args [] (world e)) as [r w'] eqn:Hfn. intros [= <- <- <-].
    right. by exists fn.
  - intros [= <- <- <-]. by left.
Qed.

(** C7 (amended). For a call whose keywords do not name [self] or [name],
    the parameters that the signature binds itself: a name without binding
    makes [call] raise the [KeyError] of the source (the spec's
    tool-not-found error), with the registry and the collaborators
    untouched; a bound name makes [call] apply the callable bound to it,
    once, to the arguments given, and return its outcome, the registry being
    the same afterwards.  A call with a keyword [self] or [name] raises
    [TypeError], whatever the registry holds: no callable is invoked and the
    registry and the collaborators are untouched.  The callable bound to a
    name is the one registered last. *)
Theorem toolbox_call_spec (self : Toolbox.t W) (name : pystr)
    (args : list pyval) (kwargs : pydict) (e : env W) :
  (py "self" ∉ dict_keys kwargs -> py "name" ∉ dict_keys kwargs ->
   (Toolbox._tools self !! name = None ->
    Toolbox.call self name args kwargs e
    = (Raise (KeyError (py "Tool '" ++ name ++ py "' not registered")), self, e))
   /\ (forall fn, Toolbox._tools self !! name = Some fn ->
         Toolbox.call self name args kwargs e
         = (fst (fn args kwargs (world e)), self,
            World.Build (snd (fn args kwargs (world e)))
                        (trace e ++ [EvTool name args kwargs
                                            (fst (fn args kwargs (world e)))]))))
  /\ (py "self" ∈ dict_keys kwargs \/ py "name" ∈ dict_keys kwargs ->
      exists msg,
        Toolbox.call self name args kwargs e
        = (Raise (OtherException (py "TypeError") msg), self, e))
  /\ (forall fn, Toolbox._tools (Toolbox.register self name fn) !! name = Some fn).
Proof.
  split_and!.
  - intros Hs Hn. assert (Hc : Toolbox.clash kwargs = None) by by apply clash_none.
    unfold Toolbox.call. rewrite Hc. split.
    + by intros ->.
    + intros fn ->. by destruct (fn args kwargs (world e)).
  - intros Hin. unfold Toolbox.call.
    destruct (Toolbox.clash kwargs) as [k|] eqn:Hc; [by eexists|].
    apply clash_none in Hc as [Hs Hn]. by destruct Hin.
  - intros fn. apply lookup_insert_eq.
Qed.

End ToolboxFacts.

(** C7 as stated fails on a call with a keyword [name]: on the empty
    toolbox it raises [TypeError], not the [KeyError]. *)
Lemma keyword_name_raises_type_error :
  ~ AsStated.unregistered_call_raises_key_error (W := unit) Toolbox.__init__
      (py "missing_tool") [] [(py "name", VStr (py "x"))] Demo.env0.
Proof.
  unfold AsStated.unregistered_call_raises_key_error. intros H.
  destruct (H (lookup_empty _)) as [msg Hmsg]. vm_compute in Hmsg. discriminate Hmsg.
Qed.

(** ** The loop *)

Section Run.
Context {W : Type}.
Variable unicode_upper : codepoint -> pystr.
Variable repr : pyval -> pystr.

Abbreviation parse := (_parse_llm_response unicode_upper).
Abbreviation body := (loop_body unicode_upper repr).
Abbreviation loop := (for_range unicode_upper repr).
Abbreviation prompt_of := (_format_prompt repr).
Abbreviation meta_of step := [(py "step", VInt step)].

Lemma set_memory_id (self : KGAgent.t W) : set_memory self (memory self) = self.
Proof. by destruct self. Qed.

Lemma set_memory_twice (self : KGAgent.t W) m m' :
  set_memory (set_memory self m) m' = set_memory self m'.
Proof. reflexivity. Qed.

Lemma memory_set_memory (self : KGAgent.t W) m : memory (set_memory self m) = m.
Proof. reflexivity. Qed.

Lemma for_range_S q n step state (s : KGAgent.t W * env W) :
  loop q (S n) step state s
  = match body q step state s with
    | (Ok (Continue state'), s') => loop q n (step + 1) state' s'
    | (Ok (Return v), s') => (Ok (Some v), s')
    | (Ok Break, s') => (Ok None, s')
    | (Raise ex, s') => (Raise ex, s')
    end.
Proof.
  simpl. unfold bind. destruct (loop_body _ _ _ _ _ _) as [[[| |]|] ?]; reflexivity.
Qed.

(** The language model raises: the exception leaves the loop. *)
Lemma loop_body_llm_raise q step state (self : KGAgent.t W) e ex w1 :
  llm self (prompt_of q state) (meta_of step) (world e) = (Raise ex, w1) ->
  body q step state (self, e)
  = (Raise ex, (self, World.Build w1 (trace e ++ [EvLLM (prompt_of q state)
                                                       (meta_of step) (Raise ex)]))).
Proof. intros H. unfold loop_body, bind, call_llm. by rewrite H. Qed.

(** An [answer] decision. *)
Lemma loop_body_answer q step state (self : KGAgent.t W) e response w1 p :
  llm self (prompt_of q state) (meta_of step) (world e) = (Ok response, w1) ->
  parse response = Decision (py "answer") p ->
  body q step state (self, e)
  = (Ok (Return (payload_value p)),
     (set_memory self (Memory.add (memory self)
                                  (final_answer_record (payload_value p) step)),
      World.Build w1 (trace e ++ [EvLLM (prompt_of q state) (meta_of step)
                                        (Ok response)]))).
Proof.
  intros H Hp. unfold loop_body, bind, call_llm. rewrite H, Hp. reflexivity.
Qed.

(** A [run_program] decision. *)
Lemma loop_body_program q step state (self : KGAgent.t W) e response w1 p :
  llm self (prompt_of q state) (meta_of step) (world e) = (Ok response, w1) ->
  parse response = Decision (py "run_program") p ->
  body q step state (self, e)
  = (Ok (Continue (AgentState (steps state ++ [program_step (payload_value p) VNone])
                              (memory_summary state))),
     (set_memory self (Memory.add (memory self)
                                  (program_record (payload_value p) VNone step)),
      World.Build w1 (trace e ++ [EvLLM (prompt_of q state) (meta_of step)
                                        (Ok response)]))).
Proof.
  intros H Hp. unfold loop_body, bind, call_llm. rewrite H, Hp. reflexivity.
Qed.

(** A [call_tool] decision: the outcome of [Toolbox.call] is the [out] of
    the step, an exception caught by [except Exception] is turned into an
    error value, any other exception leaves the loop. *)
Lemma loop_body_tool q step state (self : KGAgent.t W) e response w1 tool args tr tb e2 :
  llm self (prompt_of q state) (meta_of step) (world e) = (Ok response, w1) ->
  parse response = Decision (py "call_tool") (PCall tool args) ->
  Toolbox.call (toolbox self) tool [VStr args] []
    (World.Build w1 (trace e ++ [EvLLM (prompt_of q state) (meta_of step)
                                       (Ok response)]))
  = (tr, tb, e2) ->
  body q step state (self, e)
  = match match tr with
          | Ok out => Ok out
          | Raise ex => if isinstance_Exception ex
                        then Ok (error_value (str_exc repr ex)) else Raise ex
          end with
    | Ok out =>
        (Ok (Continue (AgentState (steps state ++ [tool_step tool out])
                                  (memory_summary state))),
         (set_memory self (Memory.add (memory self) (tool_record tool out step)), e2))
    | Raise ex => (Raise ex, (self, e2))
    end.
Proof.
  intros H Hp Hcall. destruct (toolbox_call_post _ _ _ _ _ _ _ _ Hcall) as [-> _].
  unfold loop_body, bind, call_llm. rewrite H, Hp.
  cbn [action payload]. 
  change (bool_decide (py "call_tool" = py "answer")) with false.
  change (bool_decide (py "call_tool" = py "call_tool")) with true.
  cbv iota. unfold try_except, toolbox_call. rewrite Hcall.
  destruct self as [l x tbx m k]. cbn [KGAgent.llm executor toolbox memory max_steps].
  destruct tr as [out|ex]; [reflexivity|].
  destruct (isinstance_Exception ex); reflexivity.
Qed.

(** What one iteration leaves behind. *)
Lemma loop_body_post q step state (self : KGAgent.t W) e r s' :
  body q step state (self, e) = (r, s') ->
  exists m' evs,
    s'.1 = set_memory self m' /\ trace s'.2 = trace e ++ evs
    /\ length (llm_calls evs) = 1%nat
    /\ match r with
       | Raise _ => m' = memory self
       | Ok Break => False
       | Ok (Continue _) =>
           exists rec, m' = Memory.add (memory self) rec
                       /\ dict_get (py "step") rec = Some (VInt step)
                       /\ loop_type rec
       | Ok (Return v) =>
           (exists rec, m' = Memory.add (memory self) rec
                        /\ dict_get (py "step") rec = Some (VInt step)
                        /\ loop_type rec)
           /\ exists prompt meta response,
                EvLLM prompt meta (Ok response) ∈ evs
                /\ action (parse response) = py "answer"
                /\ v = payload_value (payload (parse response))
       end.
Proof.
  destruct (llm self (prompt_of q state) (meta_of step) (world e))
    as [[response|ex] w1] eqn:Hllm.
  2:{ rewrite (loop_body_llm_raise _ _ _ _ _ _ _ Hllm). intros [= <- <-].
      exists (memory self), [EvLLM (prompt_of q state) (meta_of step) (Raise ex)].
      by rewrite set_memory_id. }
  destruct (parse_cases unicode_upper response)
    as [[text Hp]|[(tool & args & Hp)|[text Hp]]].
  - rewrite (loop_body_answer _ _ _ _ _ _ _ _ Hllm Hp). intros [= <- <-].
    eexists _, [_]. repeat split.
    + eexists. repeat split. by left.
    + eexists _, _, _. split; [apply list_elem_of_singleton; reflexivity|].
      by rewrite Hp.
  - destruct (Toolbox.call (toolbox self) tool [VStr args] []
                (World.Build w1 (trace e ++ [EvLLM (prompt_of q state) (meta_of step)
                                                   (Ok response)])))
      as [[tr tb] e2] eqn:Hcall.
    rewrite (loop_body_tool _ _ _ _ _ _ _ _ _ _ _ _ Hllm Hp Hcall).
    destruct (toolbox_call_post _ _ _ _ _ _ _ _ Hcall) as (_ & evs & Htr & Hevs).
    simpl in Htr.
    assert (Hcount : length (llm_calls (EvLLM (prompt_of q state) (meta_of step)
                                              (Ok response) :: evs)) = 1%nat).
    { unfold llm_calls in *. simpl. by rewrite Hevs. }
    destruct tr as [out|ex]; [|destruct (isinstance_Exception ex)];
      intros [= <- <-]; simpl.
    + eexists _, _. rewrite Htr, <- app_assoc. repeat split; [exact Hcount|].
      eexists. repeat split. right; by left.
    + eexists _, _. rewrite Htr, <- app_assoc. repeat split; [exact Hcount|].
      eexists. repeat split. right; by left.
    + exists (memory self). eexists. rewrite Htr, <- app_assoc, set_memory_id.
      repeat split. exact Hcount.
  - rewrite (loop_body_program _ _ _ _ _ _ _ _ Hllm Hp). intros [= <- <-].
    eexists _, [_]. repeat split.
    eexists. repeat split. right; by right.
Qed.

(** What the loop leaves behind: iteration [step + i] appends the record of
    index [i], and invokes the language model once. *)
Lemma for_range_post q n step state (self : KGAgent.t W) e r s' :
  loop q n step state (self, e) = (r, s') ->
  exists added evs,
    s'.1 = set_memory self (Memory.Build (Memory._store (memory self) ++ added))
    /\ trace s'.2 = trace e ++ evs
    /\ (length (llm_calls evs) <= n)%nat
    /\ (forall i rec, added !! i = Some rec ->
          dict_get (py "step") rec = Some (VInt (step + Z.of_nat i))
          /\ loop_type rec)
    /\ match r with
       | Ok (Some v) =>
           exists prompt meta response,
             EvLLM prompt meta (Ok response) ∈ evs
             /\ action (parse response) = py "answer"
             /\ v = payload_value (payload (parse response))
       | Ok None => length added = n /\ length (llm_calls evs) = n
       | Raise _ => True
       end.
Proof.
  revert step state self e r s'.
  induction n as [|n IH]; intros step state self e r s'.
  { simpl. intros [= <- <-]. exists [], []. rewrite !app_nil_r. simpl.
    repeat split; first [done | lia | by destruct self as [? ? ? [?] ?]]. }
  rewrite for_range_S. destruct (body q step state (self, e)) as [rb sb] eqn:Hb.
  destruct (loop_body_post _ _ _ _ _ _ _ Hb) as (m' & evs & Hself & Htr & Hcount & Hr).
  destruct sb as [self1 e1]. simpl in Hself, Htr. subst self1.
  destruct rb as [[state'|v|]|ex].
  - destruct Hr as (rec & -> & Hstep & Htype). intros Hloop.
    destruct (IH _ _ _ _ _ _ Hloop) as (added & evs' & Hs' & Htr' & Hcount' & Hrec & Hres).
    exists (rec :: added), (evs ++ evs').
    rewrite Hs', Htr', Htr, set_memory_twice, memory_set_memory. simpl.
    rewrite <- !app_assoc. unfold llm_calls in *. rewrite List.filter_app, length_app.
    split_and!; [done | done | lia | |].
    + intros [|i] rec' Hi; simpl in Hi.
      * injection Hi as <-. by rewrite Z.add_0_r.
      * destruct (Hrec i rec' Hi) as [Hs Ht]. split; [|exact Ht].
        rewrite Hs. do 2 f_equal. lia.
    + destruct r as [[v|]|ex]; [|simpl; lia|done].
      destruct Hres as (p & m & resp & Hin & Hres). exists p, m, resp.
      split; [|exact Hres]. apply elem_of_app. by right.
  - destruct Hr as [(rec & -> & Hstep & Htype) Hv]. intros [= <- <-].
    exists [rec], evs. simpl. split_and!; [done | done | lia | | exact Hv].
    intros [|i] rec' Hi; simpl in Hi; [|done].
    injection Hi as <-. by rewrite Z.add_0_r.
  - destruct Hr.
  - subst m'. intros [= <- <-]. exists [], evs. simpl.
    rewrite app_nil_r.
    repeat split; first [done | lia | by destruct self as [? ? ? [?] ?]].
Qed.

Lemma run_unfold q (self : KGAgent.t W) e :
  run unicode_upper repr q (self, e)
  = match loop q (Z.to_nat (max_steps self)) 0 (AgentState [] VNone) (self, e) with
    | (Ok (Some v), s') => (Ok v, s')
    | (Ok None, (self', e')) =>
        (Ok (VStr summary),
         (set_memory self' (Memory.add (memory self') timeout_record), e'))
    | (Raise ex, s') => (Raise ex, s')
    end.
Proof.
  unfold run, bind.
  destruct (for_range _ _ _ _ _ _ _) as [[[v|]|ex] [self' e']]; reflexivity.
Qed.

Lemma parse_program (response : pystr) :
  matches_answer_prefix unicode_upper (strip response) = false ->
  startswith (strip response) (py "CALL ") = false ->
  parse response = Decision (py "run_program") (PText (strip response)).
Proof.
  unfold matches_answer_prefix, _parse_llm_response. by intros -> ->.
Qed.

(** The record of an iteration has its [step] and one of the three types
    of the loop. *)
Lemma iteration_record_step response step rec :
  iteration_record unicode_upper response step rec ->
  dict_get (py "step") rec = Some (VInt step) /\ loop_type rec.
Proof.
  unfold iteration_record.
  intros [[_ ->]|[(_ & tool & args & out & _ & ->)|[_ ->]]]; split;
    first [reflexivity | by left | by (right; left) | by (right; right)].
Qed.

(** One iteration and the memory: what it appends, read from the memory
    afterwards, the invocation of the language model it starts with, and
    what becomes of an exception of a tool. *)
Lemma loop_body_record q step state (self : KGAgent.t W) e r s' :
  body q step state (self, e) = (r, s') ->
  exists lr tevs,
    llm s'.1 = llm self
    /\ (exists w w', llm self (prompt_of q state) (meta_of step) w = (lr, w'))
    /\ trace s'.2 = trace e ++ EvLLM (prompt_of q state) (meta_of step) lr :: tevs
    /\ llm_calls tevs = []
    /\ (forall name args kwargs ex,
          EvTool name args kwargs (Raise ex) ∈ tevs ->
          if isinstance_Exception ex
          then Memory._store (memory s'.1)
               = Memory._store (memory self)
                 ++ [tool_record name (error_value (str_exc repr ex)) step]
               /\ exists state', r = Ok (Continue state')
          else r = Raise ex)
    /\ match r with
       | Raise _ => Memory._store (memory s'.1) = Memory._store (memory self)
       | Ok Break => False
       | Ok (Continue _) =>
           exists response rec,
             lr = Ok response
             /\ Memory._store (memory s'.1) = Memory._store (memory self) ++ [rec]
             /\ iteration_record unicode_upper response step rec
       | Ok (Return v) =>
           exists response,
             lr = Ok response
             /\ Memory._store (memory s'.1)
                = Memory._store (memory self) ++ [final_answer_record v step]
             /\ iteration_record unicode_upper response step (final_answer_record v step)
       end.
Proof.
  destruct (llm self (prompt_of q state) (meta_of step) (world e))
    as [[response|ex] w1] eqn:Hllm.
  2:{ rewrite (loop_body_llm_raise _ _ _ _ _ _ _ Hllm). intros [= <- <-].
      exists (Raise ex), []. simpl. split_and!; [done | by eauto | done | done | | done].
      intros name args kwargs ex' Hin. by apply elem_of_nil in Hin. }
  destruct (parse_cases unicode_upper response)
    as [[text Hp]|[(tool & args & Hp)|[text Hp]]].
  - rewrite (loop_body_answer _ _ _ _ _ _ _ _ Hllm Hp). intros [= <- <-].
    exists (Ok response), []. simpl. split_and!; [done | by eauto | done | done | |].
    { intros name args kwargs ex' Hin. by apply elem_of_nil in Hin. }
    exists response. split_and!; [done | done |].
    unfold iteration_record. rewrite Hp. by left.
  - destruct (Toolbox.call (toolbox self) tool [VStr args] []
                (World.Build w1 (trace e ++ [EvLLM (prompt_of q state) (meta_of step)
                                                   (Ok response)])))
      as [[tr tb] e2] eqn:Hcall.
    rewrite (loop_body_tool _ _ _ _ _ _ _ _ _ _ _ _ Hllm Hp Hcall).
    assert (Hir : forall out,
              iteration_record unicode_upper response step (tool_record tool out step)).
    { intros out. unfold iteration_record. rewrite Hp. right; left.
      split; [done|]. by exists tool, args, out. }
    destruct (toolbox_call_cases _ _ _ _ _ _ _ Hcall)
      as [(Hnone & -> & ->)|(fn & Hfn & Hres & Htr)].
    + simpl. intros [= <- <-]. exists (Ok response), []. simpl.
      split_and!; [done | by eauto | done | done | | by eauto].
      intros name a k ex' Hin. by apply elem_of_nil in Hin.
    + simpl in Htr. rewrite <- app_assoc in Htr.
      destruct tr as [out|ex]; [|destruct (isinstance_Exception ex) eqn:Hex];
        intros [= <- <-];
        [exists (Ok response), [EvTool tool [VStr args] [] (Ok out)]
        |exists (Ok response), [EvTool tool [VStr args] [] (Raise ex)]
        |exists (Ok response), [EvTool tool [VStr args] [] (Raise ex)]]; simpl.
      * split_and!; [done | by eauto | exact Htr | done | | by eauto].
        intros name a k ex' Hin. apply list_elem_of_singleton in Hin. discriminate Hin.
      * split_and!; [done | by eauto | exact Htr | done | | by eauto].
        intros name a k ex' Hin. apply list_elem_of_singleton in Hin.
        injection Hin as -> -> -> ->. rewrite Hex. by eauto.
      * split_and!; [done | by eauto | exact Htr | done | | done].
        intros name a k ex' Hin. apply list_elem_of_singleton in Hin.
        injection Hin as -> -> -> ->. by rewrite Hex.
  - rewrite (loop_body_program _ _ _ _ _ _ _ _ Hllm Hp). intros [= <- <-].
    exists (Ok response), []. simpl. split_and!; [done | by eauto | done | done | |].
    { intros name args kwargs ex' Hin. by apply elem_of_nil in Hin. }
    exists response, (program_record (payload_value (PText text)) VNone step).
    split_and!; [done | done |].
    unfold iteration_record. rewrite Hp. by right; right.
Qed.

(** The loop and the memory: iteration [step + i] invokes the language
    model with [{'step': step + i}] and appends the record of index [i], the
    record of the decision parsed from the response; an exception of a tool
    is recorded when it is an instance of [Exception] and ends the loop when
    it is not. *)
Lemma for_range_records q n step state (self : KGAgent.t W) e r s' :
  loop q n step state (self, e) = (r, s') ->
  exists added evs,
    Memory._store (memory s'.1) = Memory._store (memory self) ++ added
    /\ trace s'.2 = trace e ++ evs
    /\ (forall i ev, llm_calls evs !! i = Some ev ->
          exists prompt lr w w',
            ev = EvLLM prompt (meta_of (step + Z.of_nat i)) lr
            /\ llm self prompt (meta_of (step + Z.of_nat i)) w = (lr, w'))
    /\ (forall i rec, added !! i = Some rec ->
          exists prompt response,
            llm_calls evs !! i
            = Some (EvLLM prompt (meta_of (step + Z.of_nat i)) (Ok response))
            /\ iteration_record unicode_upper response (step + Z.of_nat i) rec)
    /\ (forall name args kwargs ex,
          EvTool name args kwargs (Raise ex) ∈ evs ->
          if isinstance_Exception ex
          then exists i,
                 added !! i = Some (tool_record name (error_value (str_exc repr ex))
                                                (step + Z.of_nat i))
          else r = Raise ex)
    /\ match r with
       | Ok (Some v) =>
           length added = length (llm_calls evs)
           /\ last added
              = Some (final_answer_record v (step + Z.of_nat (length added) - 1))
       | Ok None => length added = n /\ length (llm_calls evs) = n
       | Raise _ => S (length added) = length (llm_calls evs)
       end.
Proof.
  revert step state self e r s'.
  induction n as [|n IH]; intros step state self e r s'.
  { simpl. intros [= <- <-]. exists [], []. rewrite !app_nil_r. simpl.
    split_and!; try done.
    intros name args kwargs ex Hin. by apply elem_of_nil in Hin. }
  rewrite for_range_S. destruct (body q step state (self, e)) as [rb sb] eqn:Hb.
  destruct (loop_body_record _ _ _ _ _ _ _ Hb)
    as (lr & tevs & Hsame & (w & w' & Hgen) & Htr & Hllm & Htool & Hr).
  destruct sb as [self1 e1]. simpl in Hsame, Htr, Htool, Hr.
  set (first := EvLLM (prompt_of q state) (meta_of step) lr) in *.
  assert (Hl1 : forall l, llm_calls ((first :: tevs) ++ l) = first :: llm_calls l).
  { intros l. unfold llm_calls in *. rewrite List.filter_app. simpl. by rewrite Hllm. }
  assert (Hl0 : llm_calls (first :: tevs) = [first]).
  { unfold llm_calls in *. simpl. by rewrite Hllm. }
  assert (Hfirst : forall i ev, [first] !! i = Some ev ->
            exists prompt lr' w0 w0',
              ev = EvLLM prompt (meta_of (step + Z.of_nat i)) lr'
              /\ llm self prompt (meta_of (step + Z.of_nat i)) w0 = (lr', w0')).
  { intros [|i] ev Hi; simpl in Hi; [|done]. injection Hi as <-.
    exists (prompt_of q state), lr, w, w'. by rewrite Z.add_0_r. }
  assert (Hhead : forall name args kwargs ex,
            EvTool name args kwargs (Raise ex) ∈ first :: tevs ->
            EvTool name args kwargs (Raise ex) ∈ tevs).
  { intros name args kwargs ex Hin. by apply elem_of_cons in Hin as [Heq|Hin]. }
  destruct rb as [[state'|v|]|ex].
  - destruct Hr as (response & rec & Hlr & Hstore & Hrec). intros Hloop.
    destruct (IH _ _ _ _ _ _ Hloop)
      as (added & evs' & Hs' & Htr' & Hmeta & Hrecs & Htools & Hres).
    simpl in Hs', Htr'.
    exists (rec :: added), ((first :: tevs) ++ evs').
    rewrite Hl1. split_and!.
    + by rewrite Hs', Hstore, <- app_assoc.
    + by rewrite Htr', Htr, <- app_assoc.
    + intros [|i] ev Hi; [by apply (Hfirst 0%nat)|]. simpl in Hi.
      destruct (Hmeta i ev Hi) as (p & lr' & w0 & w0' & -> & Hcall).
      exists p, lr', w0, w0'. rewrite Hsame in Hcall.
      by replace (step + Z.of_nat (S i)) with (step + 1 + Z.of_nat i) by lia.
    + intros [|i] rec' Hi; simpl in Hi.
      * injection Hi as <-. exists (prompt_of q state), response.
        simpl. rewrite Z.add_0_r. subst first. by rewrite Hlr.
      * destruct (Hrecs i rec' Hi) as (p & resp & Hlook & Hir). exists p, resp.
        replace (step + Z.of_nat (S i)) with (step + 1 + Z.of_nat i) by lia. done.
    + intros name args kwargs ex Hin. apply elem_of_app in Hin as [Hin|Hin].
      * specialize (Htool _ _ _ _ (Hhead _ _ _ _ Hin)).
        destruct (isinstance_Exception ex); [|discriminate Htool].
        destruct Htool as [Hstore' _]. rewrite Hstore in Hstore'.
        apply app_inv_head in Hstore'. injection Hstore' as ->.
        exists 0%nat. simpl. by rewrite Z.add_0_r.
      * specialize (Htools _ _ _ _ Hin).
        destruct (isinstance_Exception ex); [|exact Htools].
        destruct Htools as [i Hi]. exists (S i). simpl.
        by replace (step + Z.of_nat (S i)) with (step + 1 + Z.of_nat i) by lia.
    + destruct r as [[v|]|ex]; simpl length.
      * destruct Hres as [Hlen' Hlast]. split; [lia|].
        rewrite last_cons, Hlast. do 2 f_equal. lia.
      * lia.
      * lia.
  - destruct Hr as (response & Hlr & Hstore & Hrec). intros [= <- <-].
    exists [final_answer_record v step], (first :: tevs).
    rewrite Hl0. simpl. split_and!; [done | done | exact Hfirst | | | done |].
    + intros [|i] rec' Hi; simpl in Hi; [|done]. injection Hi as <-.
      exists (prompt_of q state), response.
      simpl. rewrite Z.add_0_r. subst first. by rewrite Hlr.
    + intros name args kwargs ex Hin. specialize (Htool _ _ _ _ (Hhead _ _ _ _ Hin)).
      destruct (isinstance_Exception ex); [|discriminate Htool].
      by destruct Htool as [_ [state' Hst]].
    + do 2 f_equal. lia.
  - destruct Hr.
  - intros [= <- <-]. exists [], (first :: tevs).
    rewrite Hl0. simpl. rewrite app_nil_r.
    split_and!; [done | done | exact Hfirst | done | | done].
    intros name args kwargs ex' Hin. specialize (Htool _ _ _ _ (Hhead _ _ _ _ Hin)).
    destruct (isinstance_Exception ex'); [|by injection Htool as ->].
    by destruct Htool as [_ [state' Hst]].
Qed.

(** C1 (amended). The records a run appends to the memory, read from the
    memory after the run, in order: iteration [i] invokes the agent's
    language model with [{'step': i}], and while its response is parsed and carried out
    without an exception it appends exactly one record, the record of index
    [i]: the [final_answer], [tool] or [program] record of the decision
    parsed from that response, with [step] equal to [i]; so the steps never
    decrease.  A run that raises has appended one record less than it has
    invoked the language model, a run that answers one record per
    invocation, the last one the [final_answer] record of the value
    returned.  The one exception to the [step] is the [timeout] record,
    appended after the [max_steps] records of the loop as the last record of
    a run that returns the summary: it has no [step]. *)
Theorem run_records_steps q (self : KGAgent.t W) e :
  let '(r, (self', e')) := run unicode_upper repr q (self, e) in
  exists added evs,
    Memory.query (memory self') None = Memory.query (memory self) None ++ added
    /\ trace e' = trace e ++ evs
    /\ (forall i ev, llm_calls evs !! i = Some ev ->
          exists prompt lr w w',
            ev = EvLLM prompt (meta_of (Z.of_nat i)) lr
            /\ llm self prompt (meta_of (Z.of_nat i)) w = (lr, w'))
    /\ (forall i rec, added !! i = Some rec ->
          (exists prompt response,
             llm_calls evs !! i = Some (EvLLM prompt (meta_of (Z.of_nat i)) (Ok response))
             /\ iteration_record unicode_upper response (Z.of_nat i) rec
             /\ dict_get (py "step") rec = Some (VInt (Z.of_nat i))
             /\ loop_type rec)
          \/ (rec = timeout_record /\ i = length (llm_calls evs)
              /\ length added = S i /\ r = Ok (VStr summary)))
    /\ match r with
       | Ok v =>
           (length added = length (llm_calls evs)
            /\ last added
               = Some (final_answer_record v (Z.of_nat (length added) - 1)))
           \/ (v = VStr summary /\ last added = Some timeout_record
               /\ length added = S (length (llm_calls evs))
               /\ length (llm_calls evs) = Z.to_nat (max_steps self))
       | Raise _ => S (length added) = length (llm_calls evs)
       end
    /\ (forall i j ri rj si sj,
          (i <= j)%nat -> added !! i = Some ri -> added !! j = Some rj ->
          dict_get (py "step") ri = Some (VInt si) ->
          dict_get (py "step") rj = Some (VInt sj) -> si <= sj)
    /\ dict_get (py "step") timeout_record = None.
Proof.
  rewrite run_unfold.
  destruct (loop q _ 0 _ (self, e)) as [rl [self1 e1]] eqn:Hl.
  destruct (for_range_records _ _ _ _ _ _ _ _ Hl)
    as (added & evs & Hs & Htr & Hmeta & Hrecs & _ & Hres).
  simpl in Hs, Htr, Hmeta, Hrecs.
  assert (Hloop : forall i rec, added !! i = Some rec ->
            exists prompt response,
              llm_calls evs !! i = Some (EvLLM prompt (meta_of (Z.of_nat i)) (Ok response))
              /\ iteration_record unicode_upper response (Z.of_nat i) rec
              /\ dict_get (py "step") rec = Some (VInt (Z.of_nat i))
              /\ loop_type rec).
  { intros i rec Hi. destruct (Hrecs i rec Hi) as (p & resp & Hlook & Hir).
    exists p, resp. destruct (iteration_record_step _ _ _ Hir) as [Hstep Htype].
    by split_and!. }
  assert (Hmono : forall added' : list pydict,
    (forall i rec, added' !! i = Some rec ->
       dict_get (py "step") rec = Some (VInt (Z.of_nat i)) \/ rec = timeout_record) ->
    forall i j ri rj si sj,
      (i <= j)%nat -> added' !! i = Some ri -> added' !! j = Some rj ->
      dict_get (py "step") ri = Some (VInt si) ->
      dict_get (py "step") rj = Some (VInt sj) -> si <= sj).
  { intros added' H i j ri rj si sj Hij Hi Hj Hsi Hsj.
    destruct (H _ _ Hi) as [Hi'| ->]; [|discriminate].
    destruct (H _ _ Hj) as [Hj'| ->]; [|discriminate].
    rewrite Hsi in Hi'. rewrite Hsj in Hj'.
    injection Hi' as ->. injection Hj' as ->. lia. }
  assert (Hsteps : forall i rec, added !! i = Some rec ->
            dict_get (py "step") rec = Some (VInt (Z.of_nat i)) \/ rec = timeout_record).
  { intros i rec Hi. left. by destruct (Hloop i rec Hi) as (_ & _ & _ & _ & ? & _). }
  destruct rl as [[v|]|ex].
  - exists added, evs. simpl. split_and!; [done | done | done | | | by apply Hmono | done].
    + intros i rec Hi. left. by apply Hloop.
    + left. destruct Hres as [Hlen Hlast]. split; [done|]. by rewrite Hlast.
  - destruct Hres as [Hlen Hcalls].
    exists (added ++ [timeout_record]), evs. simpl.
    assert (Hcases : forall i rec, (added ++ [timeout_record]) !! i = Some rec ->
              added !! i = Some rec
              \/ (rec = timeout_record /\ i = length added)).
    { intros i rec [Hi|[Hge Hi]]%lookup_app_Some; [by left|].
      apply list_lookup_singleton_Some in Hi as [Hi <-]. right. split; [done|lia]. }
    split_and!; [by rewrite Hs, app_assoc | done | done | | | | done].
    + intros i rec Hi. destruct (Hcases i rec Hi) as [Hin|[-> ->]].
      * left. by apply Hloop.
      * right. rewrite length_app. simpl. split_and!; [done | lia | lia | done].
    + right. rewrite last_snoc, length_app. simpl. split_and!; [done | done | lia | lia].
    + apply Hmono. intros i rec Hi. destruct (Hcases i rec Hi) as [Hin|[-> _]].
      * by apply Hsteps.
      * by right.
  - exists added, evs. simpl. split_and!; [done | done | done | | done | by apply Hmono | done].
    intros i rec Hi. left. by apply Hloop.
Qed.

(** C2 (amended). For a [call_tool] decision, when [Toolbox.call] raises an
    instance of [Exception] (the [KeyError] of a missing tool or an
    exception of the tool), the iteration does not raise: the [out] of the
    step is [{'error': str(e)}], a step with this [out] is appended to the
    state and the [tool] record with this [out] to the memory, as read from
    the memory afterwards, and the loop goes on with the next iteration.
    When it raises an exception that is not an instance of [Exception],
    nothing is recorded and the exception leaves the loop.  So in a run,
    every exception that a tool has raised is in a [tool] record of the
    memory when it is an instance of [Exception], and is the exception that
    the run raises when it is not. *)
Theorem tool_exception_recorded q step state (self : KGAgent.t W) e n :
  (forall response w1 tool args ex tb e2,
     llm self (prompt_of q state) (meta_of step) (world e) = (Ok response, w1) ->
     parse response = Decision (py "call_tool") (PCall tool args) ->
     Toolbox.call (toolbox self) tool [VStr args] []
       (World.Build w1 (trace e ++ [EvLLM (prompt_of q state) (meta_of step)
                                          (Ok response)]))
     = (Raise ex, tb, e2) ->
     let out := error_value (str_exc repr ex) in
     let state' :=
       AgentState (steps state ++ [tool_step tool out]) (memory_summary state) in
     let '(rb, (self', e')) := body q step state (self, e) in
     e' = e2 /\ toolbox self' = toolbox self
     /\ if isinstance_Exception ex then
          rb = Ok (Continue state')
          /\ Memory.query (memory self') None
             = Memory.query (memory self) None ++ [tool_record tool out step]
          /\ loop q (S n) step state (self, e) = loop q n (step + 1) state' (self', e')
        else
          rb = Raise ex
          /\ Memory.query (memory self') None = Memory.query (memory self) None
          /\ loop q (S n) step state (self, e) = (Raise ex, (self', e')))
  /\ (let '(r, (self', e')) := run unicode_upper repr q (self, e) in
      forall evs name args kwargs ex,
        trace e' = trace e ++ evs ->
        EvTool name args kwargs (Raise ex) ∈ evs ->
        if isinstance_Exception ex then
          exists i,
            records_added (memory self) (memory self') !! i
            = Some (tool_record name (error_value (str_exc repr ex)) (Z.of_nat i))
        else r = Raise ex).
Proof.
  split.
  - intros response w1 tool args ex tb e2 Hllm Hp Hcall out state'.
    pose proof (loop_body_tool _ _ _ _ _ _ _ _ _ _ _ _ Hllm Hp Hcall) as Hb.
    rewrite for_range_S.
    destruct (body q step state (self, e)) as [rb [self' e']].
    destruct (isinstance_Exception ex); injection Hb as -> -> ->; by split_and!.
  - rewrite run_unfold.
    destruct (loop q _ 0 _ (self, e)) as [rl [self1 e1]] eqn:Hl.
    destruct (for_range_records _ _ _ _ _ _ _ _ Hl)
      as (added & evs & Hs & Htr & _ & _ & Htools & _).
    simpl in Hs, Htr, Htools.
    assert (Hgoal : forall (r : result pyval) (self' : KGAgent.t W) added',
              Memory._store (memory self') = Memory._store (memory self) ++ added ++ added' ->
              (forall ex, rl = Raise ex -> r = Raise ex) ->
              forall evs0 name args kwargs ex,
                trace e1 = trace e ++ evs0 ->
                EvTool name args kwargs (Raise ex) ∈ evs0 ->
                if isinstance_Exception ex then
                  exists i,
                    records_added (memory self) (memory self') !! i
                    = Some (tool_record name (error_value (str_exc repr ex)) (Z.of_nat i))
                else r = Raise ex).
    { intros r self' added' Hstore Hr evs0 name args kwargs ex Htr0 Hin.
      rewrite Htr in Htr0. apply app_inv_head in Htr0. subst evs0.
      specialize (Htools _ _ _ _ Hin).
      destruct (isinstance_Exception ex); [|by apply Hr].
      destruct Htools as [i Hi]. exists i.
      unfold records_added. rewrite Hstore, drop_app_length.
      by apply lookup_app_l_Some. }
    destruct rl as [[v|]|ex].
    + apply (Hgoal _ _ []); [by rewrite app_nil_r | done].
    + apply (Hgoal _ _ [timeout_record]); [|done].
      simpl. by rewrite Hs, <- app_assoc.
    + apply (Hgoal _ _ []); [by rewrite app_nil_r | by intros ex' [= ->]].
Qed.

(** C5. With [max_steps = 3] and a language model whose every response,
    trimmed, passes neither the answer test nor the ["CALL "] test, a run
    invokes the model three times, with steps 0, 1 and 2, each time on the
    prompt of the state that the programs so far have left and in the state
    of the collaborators that the invocation before has left; it appends the
    three [program] records of the three responses and then the [timeout]
    record, as read from the memory afterwards, and returns the summary. *)
Theorem run_three_programs q (self : KGAgent.t W) e :
  max_steps self = 3 ->
  (forall prompt meta w, exists text w',
      llm self prompt meta w = (Ok text, w')
      /\ matches_answer_prefix unicode_upper (strip text) = false
      /\ startswith (strip text) (py "CALL ") = false) ->
  exists t0 t1 t2 w0 w1 w2,
    let s0 := AgentState [] VNone in
    let s1 := AgentState [program_step (VStr (strip t0)) VNone] VNone in
    let s2 := AgentState [program_step (VStr (strip t0)) VNone;
                          program_step (VStr (strip t1)) VNone] VNone in
    llm self (prompt_of q s0) (meta_of 0) (world e) = (Ok t0, w0)
    /\ llm self (prompt_of q s1) (meta_of 1) w0 = (Ok t1, w1)
    /\ llm self (prompt_of q s2) (meta_of 2) w1 = (Ok t2, w2)
    /\ let '(r, (self', e')) := run unicode_upper repr q (self, e) in
       r = Ok (VStr summary)
       /\ Memory.query (memory self') None
          = Memory.query (memory self) None
            ++ [program_record (VStr (strip t0)) VNone 0;
                program_record (VStr (strip t1)) VNone 1;
                program_record (VStr (strip t2)) VNone 2;
                timeout_record]
       /\ world e' = w2
       /\ trace e' = trace e ++ [EvLLM (prompt_of q s0) (meta_of 0) (Ok t0);
                                 EvLLM (prompt_of q s1) (meta_of 1) (Ok t1);
                                 EvLLM (prompt_of q s2) (meta_of 2) (Ok t2)].
Proof.
  intros Hmax Hllm. rewrite run_unfold, Hmax.
  change (Z.to_nat 3) with 3%nat.
  set (s0 := AgentState [] VNone).
  destruct (Hllm (prompt_of q s0) (meta_of 0) (world e)) as (t0 & w0 & H0 & Ha0 & Hc0).
  rewrite for_range_S, (loop_body_program _ _ _ _ _ _ _ _ H0 (parse_program _ Ha0 Hc0)).
  set (s1 := AgentState _ _). set (self1 := set_memory self _). set (e1 := World.Build w0 _).
  destruct (Hllm (prompt_of q s1) (meta_of (0 + 1)) (world e1)) as (t1 & w1 & H1 & Ha1 & Hc1).
  rewrite for_range_S,
    (loop_body_program _ _ _ self1 _ _ _ _ H1 (parse_program _ Ha1 Hc1)).
  set (s2 := AgentState _ _). set (self2 := set_memory self1 _). set (e2 := World.Build w1 _).
  destruct (Hllm (prompt_of q s2) (meta_of (0 + 1 + 1)) (world e2))
    as (t2 & w2 & H2 & Ha2 & Hc2).
  rewrite for_range_S,
    (loop_body_program _ _ _ self2 _ _ _ _ H2 (parse_program _ Ha2 Hc2)).
  exists t0, t1, t2, w0, w1, w2.
  split_and!; [exact H0 | exact H1 | exact H2 | ].
  subst e2 e1 self2 self1. simpl. rewrite <- !app_assoc. by split_and!.
Qed.

(** The run whose first response is ["ANSWER: demo"]. *)
Lemma run_answer_demo q (self : KGAgent.t W) e w1 :
  0 < max_steps self ->
  llm self (prompt_of q (AgentState [] VNone)) (meta_of 0) (world e)
  = (Ok (py "ANSWER: demo"), w1) ->
  run unicode_upper repr q (self, e)
  = (Ok (VStr (py "demo")),
     (set_memory self
        (Memory.add (memory self) (final_answer_record (VStr (py "demo")) 0)),
      World.Build w1 (trace e ++ [EvLLM (prompt_of q (AgentState [] VNone))
                                        (meta_of 0) (Ok (py "ANSWER: demo"))]))).
Proof.
  intros Hmax Hllm. rewrite run_unfold.
  destruct (Z.to_nat (max_steps self)) as [|n] eqn:Hn; [lia|].
  assert (Hp : parse (py "ANSWER: demo") = Decision (py "answer") (PText (py "demo")))
    by reflexivity.
  by rewrite for_range_S, (loop_body_answer _ _ _ _ _ _ _ _ Hllm Hp).
Qed.

(** The first invocation of an iteration, and of a run that has steps, is
    that of the language model on the prompt of the current state. *)
Lemma loop_body_first_event q step state (self : KGAgent.t W) e r s' lr w1 :
  llm self (prompt_of q state) (meta_of step) (world e) = (lr, w1) ->
  body q step state (self, e) = (r, s') ->
  exists evs,
    trace s'.2 = trace e ++ EvLLM (prompt_of q state) (meta_of step) lr :: evs.
Proof.
  intros Hllm. destruct lr as [response|ex].
  2:{ rewrite (loop_body_llm_raise _ _ _ _ _ _ _ Hllm). intros [= <- <-]. by exists []. }
  destruct (parse_cases unicode_upper response)
    as [[text Hp]|[(tool & args & Hp)|[text Hp]]].
  - rewrite (loop_body_answer _ _ _ _ _ _ _ _ Hllm Hp). intros [= <- <-]. by exists [].
  - destruct (Toolbox.call (toolbox self) tool [VStr args] []
                (World.Build w1 (trace e ++ [EvLLM (prompt_of q state) (meta_of step)
                                                   (Ok response)])))
      as [[tr tb] e2] eqn:Hcall.
    rewrite (loop_body_tool _ _ _ _ _ _ _ _ _ _ _ _ Hllm Hp Hcall).
    destruct (toolbox_call_post _ _ _ _ _ _ _ _ Hcall) as (_ & evs & Htr & _).
    simpl in Htr. rewrite <- app_assoc in Htr.
    destruct tr as [out|ex]; [|destruct (isinstance_Exception ex)];
      intros [= <- <-]; by exists evs.
  - rewrite (loop_body_program _ _ _ _ _ _ _ _ Hllm Hp). intros [= <- <-]. by exists [].
Qed.

Lemma run_first_event q (self : KGAgent.t W) e r s' lr w1 :
  0 < max_steps self ->
  llm self (prompt_of q (AgentState [] VNone)) (meta_of 0) (world e) = (lr, w1) ->
  run unicode_upper repr q (self, e) = (r, s') ->
  exists evs,
    trace s'.2
    = trace e ++ EvLLM (prompt_of q (AgentState [] VNone)) (meta_of 0) lr :: evs.
Proof.
  intros Hmax Hllm. rewrite run_unfold.
  destruct (Z.to_nat (max_steps self)) as [|n] eqn:Hn; [lia|].
  rewrite for_range_S.
  destruct (body q 0 _ (self, e)) as [rb [self1 e1]] eqn:Hb.
  destruct (loop_body_first_event _ _ _ _ _ _ _ _ _ Hllm Hb) as [evs Hevs].
  simpl in Hevs. destruct rb as [[state'|v|]|ex].
  - destruct (loop q n _ state' (self1, e1)) as [rl [self2 e2]] eqn:Hl.
    destruct (for_range_post _ _ _ _ _ _ _ _ Hl) as (_ & evs' & _ & Htr & _).
    simpl in Htr.
    destruct rl as [[v|]|ex]; intros [= <- <-]; exists (evs ++ evs'); simpl;
      by rewrite Htr, Hevs, <- app_assoc.
  - intros [= <- <-]. by exists evs.
  - intros [= <- <-]. by exists evs.
  - intros [= <- <-]. by exists evs.
Qed.

(** C6. When the first invocation of the language model in a run gives
    ["ANSWER: demo"], the run returns ["demo"], this invocation is the only
    one of the run, and the run has appended one record to the memory, the
    [final_answer] record with answer ["demo"] and [step] 0; on a fresh
    memory it is the only record. *)
Theorem run_answer_first q (self self' : KGAgent.t W) e e' r evs p m rest :
  run unicode_upper repr q (self, e) = (r, (self', e')) ->
  trace e' = trace e ++ evs ->
  llm_calls evs = EvLLM p m (Ok (py "ANSWER: demo")) :: rest ->
  r = Ok (VStr (py "demo"))
  /\ evs = [EvLLM (prompt_of q (AgentState [] VNone)) (meta_of 0)
                  (Ok (py "ANSWER: demo"))]
  /\ Memory._store (memory self')
     = Memory._store (memory self) ++ [final_answer_record (VStr (py "demo")) 0]
  /\ (Memory._store (memory self) = [] ->
      Memory.query (memory self') None = [final_answer_record (VStr (py "demo")) 0])
  /\ dict_get (py "type") (final_answer_record (VStr (py "demo")) 0)
     = Some (VStr (py "final_answer"))
  /\ dict_get (py "step") (final_answer_record (VStr (py "demo")) 0) = Some (VInt 0).
Proof.
  intros Hrun Htr Hcalls.
  destruct (Z_le_gt_dec (max_steps self) 0) as [Hle|Hgt].
  { exfalso. rewrite run_unfold in Hrun.
    assert (Hz : Z.to_nat (max_steps self) = 0%nat) by (clear -Hle; lia).
    rewrite Hz in Hrun. simpl in Hrun.
    injection Hrun as _ _ <-. rewrite <- (app_nil_r (trace e)) in Htr at 1.
    apply app_inv_head in Htr. by subst evs. }
  destruct (llm self (prompt_of q (AgentState [] VNone)) (meta_of 0) (world e))
    as [lr w1] eqn:Hllm.
  assert (Hpos : 0 < max_steps self) by (clear -Hgt; lia).
  destruct (run_first_event _ _ _ _ _ _ _ Hpos Hllm Hrun) as [evs' Hevs'].
  simpl in Hevs'. rewrite Htr in Hevs'. apply app_inv_head in Hevs'. subst evs.
  injection Hcalls as <- <- -> _.
  rewrite (run_answer_demo _ _ _ _ Hpos Hllm) in Hrun.
  injection Hrun as <- <- <-. simpl in Htr. apply app_inv_head in Htr.
  injection Htr as <-. split_and!; try done.
  simpl. by intros ->.
Qed.

(** C9. The action of a decision is ['answer'], ['call_tool'] or
    ['run_program']; no iteration ends in the final [break]; and a value
    returned by a run is the summary or the payload of the [answer] decision
    parsed from a response that the language model gave during the run. *)
Theorem run_outcomes :
  (forall response,
      action (parse response) = py "answer"
      \/ action (parse response) = py "call_tool"
      \/ action (parse response) = py "run_program")
  /\ (forall q step state (s : KGAgent.t W * env W),
        (body q step state s).1 <> Ok Break)
  /\ (forall q (self : KGAgent.t W) e,
        let '(r, (_, e')) := run unicode_upper repr q (self, e) in
        forall v, r = Ok v ->
          v = VStr summary
          \/ exists evs prompt meta response,
               trace e' = trace e ++ evs
               /\ EvLLM prompt meta (Ok response) ∈ evs
               /\ action (parse response) = py "answer"
               /\ v = payload_value (payload (parse response))).
Proof.
  split_and!.
  - intros response.
    destruct (parse_cases unicode_upper response)
      as [[text ->]|[(tool & args & ->)|[text ->]]]; auto.
  - intros q step state [self e] Hbreak.
    destruct (body q step state (self, e)) as [r s'] eqn:Hb.
    destruct (loop_body_post _ _ _ _ _ _ _ Hb) as (m' & evs & _ & _ & _ & Hr).
    simpl in Hbreak. by subst r.
  - intros q self e. rewrite run_unfold.
    destruct (loop q _ 0 _ (self, e)) as [rl [self1 e1]] eqn:Hl.
    destruct (for_range_post _ _ _ _ _ _ _ _ Hl) as (added & evs & _ & Htr & _ & _ & Hres).
    simpl in Htr. destruct rl as [[v|]|ex].
    + intros v' [= <-]. right. destruct Hres as (p & m & resp & Hin & Hact & Hv).
      by exists evs, p, m, resp.
    + intros v' [= <-]. by left.
    + done.
Qed.

(** C10. With [max_steps <= 0] a run does not invoke the language model
    (the collaborators' state and the log of invocations are as before),
    appends the [timeout] record and nothing else, as read from the memory
    afterwards, and returns the summary.  When the argument is omitted,
    [max_steps] is 10. *)
Theorem run_without_steps q (self : KGAgent.t W) e :
  max_steps self <= 0 ->
  (let '(r, (self', e')) := run unicode_upper repr q (self, e) in
   r = Ok (VStr summary)
   /\ e' = e
   /\ Memory.query (memory self') None
      = Memory.query (memory self) None ++ [timeout_record]
   /\ records_added (memory self) (memory self') = [timeout_record])
  /\ (forall llm executor toolbox mem,
        max_steps (__init__ (W := W) llm executor toolbox mem None) = 10).
Proof.
  intros Hmax. split; [|done].
  rewrite run_unfold. replace (Z.to_nat (max_steps self)) with 0%nat by lia.
  simpl. split_and!; [done | done | done |].
  unfold records_added. simpl. apply drop_app_length.
Qed.

End Run.

(** ** The statements on sample agents *)

(** A run of one step on program text leaves a [program] record and the
    [timeout] record. *)
Lemma program_agent_store :
  Memory._store
    (memory (run Demo.upper_id Demo.repr_stub [] (Demo.program_agent 1, Demo.env0)).2.1)
  = [program_record (VStr Demo.program_text) VNone 0; timeout_record].
Proof. vm_compute. reflexivity. Qed.

(** C1 as stated fails on a run of one step over program text: the
    [timeout] record that ends it has no [step]. *)
Lemma timeout_record_without_step :
  ~ Stated.every_record_carries_step Demo.upper_id Demo.repr_stub []
      (Demo.program_agent 1) Demo.env0.
Proof.
  unfold Stated.every_record_carries_step. intros H.
  pose proof program_agent_store as Hstore.
  destruct (run _ _ _ _) as [r [self' e']]. simpl in Hstore.
  unfold records_added in H. rewrite Hstore in H. simpl in H.
  destruct (H timeout_record) as [i Hi].
  - apply list_elem_of_In. simpl. auto.
  - discriminate Hi.
Qed.

(** A tool interrupted from the keyboard ends the run with the
    interruption; nothing is recorded. *)
Lemma interrupted_agent_run :
  let '(r, (self', _)) :=
    run Demo.upper_id Demo.repr_stub [] (Demo.interrupted_agent, Demo.env0) in
  r = Raise (NonException (py "KeyboardInterrupt") [])
  /\ Memory._store (memory self') = [].
Proof. vm_compute. split; reflexivity. Qed.

(** C2 as stated fails on the first iteration of that run: an exception of
    a tool that is not an instance of [Exception] leaves the loop. *)
Lemma interrupted_tool_propagates :
  ~ Stated.every_tool_exception_recorded Demo.upper_id Demo.repr_stub [] 0
      (AgentState [] VNone) Demo.interrupted_agent Demo.env0.
Proof.
  unfold Stated.every_tool_exception_recorded. intros H.
  set (prompt := _format_prompt Demo.repr_stub [] (AgentState [] VNone)).
  set (response := py "CALL search x").
  set (ex := NonException (py "KeyboardInterrupt") []).
  specialize (H response tt (py "search") (py "x") ex
                (toolbox Demo.interrupted_agent)
                (World.Build tt [EvLLM prompt [(py "step", VInt 0)] (Ok response);
                                 EvTool (py "search") [VStr (py "x")] [] (Raise ex)])).
  simpl in H. specialize (H eq_refl eq_refl).
  assert (Hcall : Toolbox.call (toolbox Demo.interrupted_agent) (py "search")
                    [VStr (py "x")] []
                    (World.Build tt (trace Demo.env0
                                     ++ [EvLLM prompt [(py "step", VInt 0)] (Ok response)]))
                  = (Raise ex, toolbox Demo.interrupted_agent,
                     World.Build tt [EvLLM prompt [(py "step", VInt 0)] (Ok response);
                                     EvTool (py "search") [VStr (py "x")] [] (Raise ex)]))
    by (vm_compute; reflexivity).
  specialize (H Hcall). vm_compute in H. discriminate H.
Qed.

(** A call of a tool that is not registered: the [KeyError] is recorded. *)
Lemma tool_exception_recorded_witness :
  let self := Demo.missing_tool_agent in
  let state := AgentState [] VNone in
  let response := py "CALL missing_tool x" in
  let ex := KeyError (py "Tool 'missing_tool' not registered") in
  let out := error_value (str_exc Demo.repr_stub ex) in
  let e1 := World.Build tt [EvLLM (_format_prompt Demo.repr_stub [] state)
                                  [(py "step", VInt 0)] (Ok response)] in
  llm self (_format_prompt Demo.repr_stub [] state) [(py "step", VInt 0)]
      (world Demo.env0) = (Ok response, tt)
  /\ _parse_llm_response Demo.upper_id response
     = Decision (py "call_tool") (PCall (py "missing_tool") (py "x"))
  /\ Toolbox.call (toolbox self) (py "missing_tool") [VStr (py "x")] [] e1
     = (Raise ex, toolbox self, e1)
  /\ isinstance_Exception ex = true
  /\ let '(rb, (self', e')) :=
       loop_body Demo.upper_id Demo.repr_stub [] 0 state (self, Demo.env0) in
     rb = Ok (Continue (AgentState [tool_step (py "missing_tool") out] VNone))
     /\ Memory.query (memory self') None = [tool_record (py "missing_tool") out 0]
     /\ e' = e1.
Proof.
  intros self state response ex out e1.
  split_and!; [reflexivity | reflexivity | reflexivity | reflexivity |].
  destruct (tool_exception_recorded Demo.upper_id Demo.repr_stub [] 0 state self
              Demo.env0 0%nat) as [Hbody _].
  specialize (Hbody response tt (py "missing_tool") (py "x") ex (toolbox self) e1
                eq_refl eq_refl eq_refl).
  cbv zeta in Hbody. change (isinstance_Exception ex) with true in Hbody.
  cbv iota in Hbody. revert Hbody.
  destruct (loop_body Demo.upper_id Demo.repr_stub [] 0 state (self, Demo.env0))
    as [rb [self' e']].
  intros (He & _ & Hrb & Hmem & _). split_and!; [exact Hrb | exact Hmem | exact He].
Defined.

(** Three steps over program text. *)
Lemma run_three_programs_witness :
  max_steps (Demo.program_agent 3) = 3
  /\ (forall prompt meta w, exists text w',
        llm (Demo.program_agent 3) prompt meta w = (Ok text, w')
        /\ matches_answer_prefix Demo.upper_id (strip text) = false
        /\ startswith (strip text) (py "CALL ") = false)
  /\ let '(r, (self', e')) :=
       run Demo.upper_id Demo.repr_stub [] (Demo.program_agent 3, Demo.env0) in
     r = Ok (VStr summary)
     /\ Memory.query (memory self') None
        = [program_record (VStr Demo.program_text) VNone 0;
           program_record (VStr Demo.program_text) VNone 1;
           program_record (VStr Demo.program_text) VNone 2;
           timeout_record]
     /\ length (llm_calls (trace e')) = 3%nat.
Proof.
  assert (Hllm : forall prompt meta w, exists text w',
             llm (Demo.program_agent 3) prompt meta w = (Ok text, w')
             /\ matches_answer_prefix Demo.upper_id (strip text) = false
             /\ startswith (strip text) (py "CALL ") = false).
  { intros prompt meta w. exists Demo.program_text, w.
    split_and!; reflexivity. }
  split_and!; [reflexivity | exact Hllm |].
  destruct (run_three_programs Demo.upper_id Demo.repr_stub [] (Demo.program_agent 3)
              Demo.env0 eq_refl Hllm)
    as (t0 & t1 & t2 & w0 & w1 & w2 & H0 & H1 & H2 & Hrun).
  injection H0 as <- <-. injection H1 as <- <-. injection H2 as <- <-.
  revert Hrun.
  destruct (run Demo.upper_id Demo.repr_stub [] (Demo.program_agent 3, Demo.env0))
    as [r [self' e']].
  intros (Hr & Hmem & _ & Htr). split_and!; [exact Hr | exact Hmem |].
  rewrite Htr. reflexivity.
Defined.

(** The answer at the first step. *)
Lemma run_answer_first_witness :
  let first := EvLLM (_format_prompt Demo.repr_stub [] (AgentState [] VNone))
                     [(py "step", VInt 0)] (Ok (py "ANSWER: demo")) in
  let self' := set_memory Demo.answer_agent
                 (Memory.add (memory Demo.answer_agent)
                             (final_answer_record (VStr (py "demo")) 0)) in
  let e' := World.Build tt [first] in
  run Demo.upper_id Demo.repr_stub [] (Demo.answer_agent, Demo.env0)
  = (Ok (VStr (py "demo")), (self', e'))
  /\ trace e' = trace Demo.env0 ++ [first]
  /\ llm_calls [first] = [first]
  /\ Memory.query (memory self') None = [final_answer_record (VStr (py "demo")) 0].
Proof.
  intros first self' e'.
  assert (Hrun : run Demo.upper_id Demo.repr_stub [] (Demo.answer_agent, Demo.env0)
                 = (Ok (VStr (py "demo")), (self', e'))) by reflexivity.
  split_and!; [exact Hrun | reflexivity | reflexivity |].
  destruct (run_answer_first Demo.upper_id Demo.repr_stub [] Demo.answer_agent self'
              Demo.env0 e' _ [first] _ _ [] Hrun eq_refl eq_refl)
    as (_ & _ & _ & Hfresh & _).
  apply Hfresh. reflexivity.
Defined.

(** A negative [max_steps]. *)
Lemma run_without_steps_witness :
  max_steps (Demo.program_agent (-2)) <= 0
  /\ let '(r, (self', e')) :=
       run Demo.upper_id Demo.repr_stub [] (Demo.program_agent (-2), Demo.env0) in
     r = Ok (VStr summary) /\ e' = Demo.env0
     /\ Memory.query (memory self') None = [timeout_record].
Proof.
  assert (Hmax : max_steps (Demo.program_agent (-2)) <= 0) by (simpl; lia).
  split; [exact Hmax|].
  destruct (run_without_steps Demo.upper_id Demo.repr_stub [] (Demo.program_agent (-2))
              Demo.env0 Hmax) as [Hrun _].
  revert Hrun.
  destruct (run Demo.upper_id Demo.repr_stub [] (Demo.program_agent (-2), Demo.env0))
    as [r [self' e']].
  intros (Hr & He & Hmem & _). split_and!; [exact Hr | exact He | exact Hmem].
Defined.

(** * Further properties *)

(** ** [strip] *)

Lemma lstrip_app (w x : pystr) :
  lstrip (w ++ x) = match lstrip w with [] => lstrip x | _ :: _ => lstrip w ++ x end.
Proof.
  induction w as [|c w IH]; simpl; [done|].
  destruct (isspace c); [exact IH | done].
Qed.

Lemma lstrip_space (ws x : pystr) : all_space ws -> lstrip (ws ++ x) = lstrip x.
Proof.
  induction 1 as [|c ws Hc _ IH]; simpl; [done|]. by rewrite Hc.
Qed.

Lemma lstrip_idem (s : pystr) : lstrip (lstrip s) = lstrip s.
Proof.
  induction s as [|c s IH]; simpl; [done|].
  destruct (isspace c) eqn:Hc; [exact IH|]. simpl. by rewrite Hc.
Qed.

(** [rstrip] from the left. *)
Lemma rstrip_cons c (s : pystr) :
  rstrip (c :: s)
  = match rstrip s with
    | [] => if isspace c then [] else [c]
    | _ :: _ => c :: rstrip s
    end.
Proof.
  unfold rstrip. simpl. rewrite lstrip_app.
  destruct (lstrip (rev s)) as [|d r] eqn:Hl; simpl.
  - by destruct (isspace c).
  - rewrite rev_app_distr. simpl.
    destruct (rev r ++ [d]) eqn:Hr; [by destruct (rev r)|done].
Qed.

Lemma rstrip_nonspace c (s : pystr) :
  isspace c = false -> rstrip (c :: s) = c :: rstrip s.
Proof. intros Hc. rewrite rstrip_cons, Hc. by destruct (rstrip s). Qed.

Lemma rstrip_no_space_app (p s : pystr) :
  no_space p -> rstrip (p ++ s) = p ++ rstrip s.
Proof.
  induction 1 as [|c p Hc _ IH]; simpl; [done|].
  by rewrite rstrip_nonspace, IH.
Qed.

Lemma rstrip_space (x ws : pystr) : all_space ws -> rstrip (x ++ ws) = rstrip x.
Proof.
  intros Hws. unfold rstrip. rewrite rev_app_distr, lstrip_space; [done|].
  by apply Forall_rev.
Qed.

Lemma rstrip_idem (s : pystr) : rstrip (rstrip s) = rstrip s.
Proof. unfold rstrip. by rewrite rev_involutive, lstrip_idem. Qed.

Lemma lstrip_rstrip (s : pystr) : lstrip (rstrip s) = rstrip (lstrip s).
Proof.
  induction s as [|c s IH]; [done|].
  rewrite rstrip_cons. simpl. destruct (isspace c) eqn:Hc.
  - rewrite <- IH. destruct (rstrip s); simpl; [done | by rewrite Hc].
  - rewrite rstrip_nonspace by done.
    destruct (rstrip s); simpl; by rewrite Hc.
Qed.

Lemma strip_idem (s : pystr) : strip (strip s) = strip s.
Proof.
  unfold strip. by rewrite lstrip_rstrip, lstrip_idem, rstrip_idem.
Qed.

Lemma strip_rstrip (s : pystr) : strip (rstrip s) = strip s.
Proof. unfold strip. by rewrite lstrip_rstrip, rstrip_idem. Qed.

Lemma strip_around (ws1 s ws2 : pystr) :
  all_space ws1 -> all_space ws2 -> strip (ws1 ++ s ++ ws2) = strip s.
Proof.
  intros H1 H2. unfold strip.
  by rewrite lstrip_space, <- lstrip_rstrip, rstrip_space, lstrip_rstrip.
Qed.

Lemma strip_all_space (ws : pystr) : all_space ws -> strip ws = [].
Proof.
  intros H. unfold strip. rewrite <- (app_nil_r ws), lstrip_space by done.
  reflexivity.
Qed.

Lemma rstrip_app_nonempty (x s : pystr) :
  rstrip s <> [] -> rstrip (x ++ s) = x ++ rstrip s.
Proof.
  intros Hs. induction x as [|c x IH]; simpl; [done|].
  rewrite rstrip_cons, IH. destruct (x ++ rstrip s) eqn:Hx; [|done].
  by apply app_eq_nil in Hx as [_ ?].
Qed.

Lemma lstrip_nonspace c (s : pystr) : isspace c = false -> lstrip (c :: s) = c :: s.
Proof. intros Hc. simpl. by rewrite Hc. Qed.

(** A text that starts and ends with characters that are not whitespace is
    left as it is. *)
Lemma strip_fixed c (s l : pystr) d :
  isspace c = false -> isspace d = false -> c :: s = l ++ [d] ->
  strip (c :: s) = c :: s.
Proof.
  intros Hc Hd Heq. unfold strip. rewrite lstrip_nonspace by done.
  rewrite Heq. rewrite rstrip_app_nonempty; rewrite (rstrip_nonspace _ _ Hd); done.
Qed.

Lemma span_word_app (w r : pystr) :
  no_space w -> (r = [] \/ exists c r', r = c :: r' /\ isspace c = true) ->
  span_word (w ++ r) = (w, r).
Proof.
  intros Hw Hr. induction Hw as [|c w Hc _ IH]; simpl.
  - destruct Hr as [->|(c & r' & -> & Hc)]; simpl; [done | by rewrite Hc].
  - by rewrite Hc, IH.
Qed.

Lemma ci_startswith_app (s x p : pystr) :
  ci_startswith s p = true -> ci_startswith (s ++ x) p = true.
Proof.
  revert s. induction p as [|c p IH]; intros s; simpl; [done|].
  destruct s as [|d s]; simpl; [discriminate|].
  intros [Hcd Hs]%andb_true_iff. rewrite Hcd. simpl. by apply IH.
Qed.

Lemma ascii_fold_eq (c d : codepoint) :
  upper_stable d -> ascii_fold d = ascii_fold c ->
  c = d \/ ((0x41 <= d <= 0x5A)%N /\ c = (d + 0x20)%N).
Proof.
  unfold upper_stable, ascii_fold. intros [Hd Hlow].
  repeat match goal with
         | |- context [(?a <=? ?b)%N] => destruct (N.leb_spec a b)
         end; simpl; lia.
Qed.

Lemma isspace_letter (c : codepoint) : (0x61 <= c <= 0x7A)%N -> isspace c = false.
Proof.
  intros Hc. unfold isspace.
  repeat match goal with
         | |- context [(?a <=? ?b)%N] => destruct (N.leb_spec a b); try lia
         | |- context [(?a =? ?b)%N] => destruct (N.eqb_spec a b); try lia
         end;
    try reflexivity.
Qed.

Lemma ascii_fold_no_space (c d : codepoint) :
  upper_stable d -> isspace d = false -> ascii_fold d = ascii_fold c ->
  isspace c = false.
Proof.
  intros Hd Hsp Heq. destruct (ascii_fold_eq c d Hd Heq) as [->|[Hr ->]]; [done|].
  apply isspace_letter. lia.
Qed.

Lemma ci_startswith_no_space (s p : pystr) :
  Forall upper_stable p -> no_space p -> length s = length p ->
  ci_startswith s p = true -> no_space s.
Proof.
  intros Hp. revert s. induction Hp as [|d p Hd _ IH]; intros s Hsp Hlen.
  - destruct s; [constructor | discriminate].
  - destruct s as [|c s]; [discriminate|]. simpl.
    inversion Hsp as [|? ? Hd' Hp']; subst.
    intros [Hcd Hs]%andb_true_iff. apply N.eqb_eq in Hcd. constructor.
    + by apply (ascii_fold_no_space c d).
    + apply IH; [done | by injection Hlen | done].
Qed.

(** ** More on the parser *)

Section ParserMore.
Variable unicode_upper : codepoint -> pystr.

Abbreviation parse := (_parse_llm_response unicode_upper).

Lemma call_not_answer (r : pystr) :
  matches_answer_prefix unicode_upper (py "CALL " ++ r) = false.
Proof. reflexivity. Qed.

(** X1. Whitespace around a response does not change the decision. *)
Theorem parse_ignores_surrounding_space (ws1 response ws2 : pystr) :
  all_space ws1 -> all_space ws2 ->
  parse (ws1 ++ response ++ ws2) = parse response.
Proof.
  intros H1 H2. unfold _parse_llm_response. by rewrite strip_around.
Qed.

(** X2. A response that is empty or all whitespace is a program: the
    decision is [run_program] with the empty text. *)
Theorem parse_blank (response : pystr) :
  all_space response ->
  parse response = Decision (py "run_program") (PText []).
Proof.
  intros H. unfold _parse_llm_response. by rewrite strip_all_space.
Qed.

(** X3. Writing a tool call and reading it back: ["CALL "], a tool name
    without whitespace, and then nothing or whitespace and trimmed
    arguments, is parsed into that tool name and those arguments. *)
Theorem parse_call_round_trip (tool ws args : pystr) :
  tool <> [] -> no_space tool -> all_space ws -> remainder ws args ->
  strip args = args ->
  parse (py "CALL " ++ tool ++ ws ++ args)
  = Decision (py "call_tool") (PCall tool args).
Proof.
  intros Hne Htool Hws Hrem Hargs.
  destruct tool as [|t tool]; [done|]. inversion Htool as [|? ? Ht Htool']; subst.
  assert (Hrargs : rstrip args = args).
  { destruct args as [|a args]; [done|]. destruct Hrem as [_ Ha].
    unfold strip in Hargs. by rewrite lstrip_nonspace in Hargs. }
  assert (Htail : ws ++ args = [] \/ exists c r', ws ++ args = c :: r' /\ isspace c = true).
  { destruct args as [|a args]; simpl in Hrem.
    - subst ws. by left.
    - destruct Hrem as [Hw _]. destruct ws as [|w ws]; [done|].
      inversion Hws; subst. right. eauto. }
  assert (Hstrip : strip (py "CALL " ++ (t :: tool) ++ ws ++ args)
                   = py "CALL " ++ (t :: tool) ++ ws ++ args).
  { unfold strip. change (lstrip (py "CALL " ++ ?x)) with (py "CALL " ++ x).
    destruct args as [|a args].
    - simpl in Hrem. subst ws. rewrite !app_nil_r.
      assert (Hrt : rstrip (t :: tool) = t :: tool).
      { pose proof (rstrip_no_space_app _ [] Htool) as Hrt.
        by rewrite !app_nil_r in Hrt. }
      rewrite rstrip_app_nonempty; by rewrite Hrt.
    - rewrite !app_assoc. rewrite rstrip_app_nonempty; by rewrite Hrargs. }
  unfold _parse_llm_response. rewrite Hstrip.
  change (startswith (upper unicode_upper (py "CALL " ++ ?x)) (py "ANSWER:")) with false.
  change (startswith (py "CALL " ++ ?x) (py "CALL ")) with true. cbv iota.
  rewrite split_call, split_1.
  rewrite <- app_comm_cons, lstrip_nonspace by done.
  rewrite app_comm_cons, (span_word_app _ _ Htool Htail), split_0.
  rewrite lstrip_space by done.
  destruct args as [|a args]; [reflexivity|].
  destruct Hrem as [_ Ha]. rewrite lstrip_nonspace by done. reflexivity.
Qed.

(** X4. Writing an answer and reading it back: after ["ANSWER:"] in any
    mix of upper and lower case, whatever text follows is the answer, once
    trimmed. *)
Theorem parse_answer_round_trip (prefix text : pystr) :
  length prefix = 7%nat -> ci_startswith prefix (py "ANSWER:") = true ->
  parse (prefix ++ text) = Decision (py "answer") (PText (strip text)).
Proof.
  intros Hlen Hci.
  assert (Hstable : Forall upper_stable (py "ANSWER:"))
    by (repeat constructor; simpl; lia).
  assert (Hp : no_space prefix).
  { apply (ci_startswith_no_space prefix (py "ANSWER:")); try done.
    repeat constructor. }
  assert (Hstrip : strip (prefix ++ text) = prefix ++ rstrip text).
  { unfold strip. destruct prefix as [|c prefix]; [discriminate|].
    inversion Hp; subst. rewrite <- app_comm_cons, lstrip_nonspace by done.
    by rewrite app_comm_cons, rstrip_no_space_app. }
  unfold _parse_llm_response. rewrite Hstrip.
  rewrite (ci_startswith_upper unicode_upper _ _ Hstable (ci_startswith_app _ _ _ Hci)).
  rewrite drop_app_length' by done. by rewrite strip_rstrip.
Qed.

(** X5. Payloads are normal forms: the text of an answer or of a program
    is trimmed; a tool name is not empty and has no whitespace, and the
    arguments of a tool call are trimmed. *)
Theorem parse_payload_trimmed (response : pystr) :
  match payload (parse response) with
  | PText text => strip text = text
  | PCall tool args => tool <> [] /\ no_space tool /\ strip args = args
  end.
Proof.
  unfold _parse_llm_response.
  destruct (startswith (upper _ _) _); [apply strip_idem|].
  destruct (startswith (strip response) (py "CALL ")) eqn:Hcall; [|apply strip_idem].
  destruct (startswith_app _ _ Hcall) as [r Hr].
  destruct (split_call_fields response r Hr)
    as (tool & args & (ws1 & ws2 & Htext & _ & _ & Hne & Htool & _ & Hrem) & Hsplit).
  rewrite Hsplit.
  assert (Hargs : strip args = args).
  { destruct args as [|a args]; [done|]. destruct Hrem as [_ Ha].
    destruct (exists_last (l := a :: args)) as (l & d & Hl); [done|].
    apply (strip_fixed a args l d); [done| |done].
    rewrite Hl, !app_assoc in Htext. by apply strip_last in Htext. }
  destruct args; simpl; repeat case_decide; (done || lia).
Qed.

End ParserMore.

(** Tabs and a newline around the spec's tool call. *)
Lemma parse_ignores_surrounding_space_witness :
  all_space [9%N; 32%N] /\ all_space [10%N]
  /\ _parse_llm_response Demo.upper_id
       ([9%N; 32%N] ++ py "CALL toolA some args here" ++ [10%N])
     = Decision (py "call_tool") (PCall (py "toolA") (py "some args here")).
Proof.
  assert (H1 : all_space [9%N; 32%N]) by (repeat constructor).
  assert (H2 : all_space [10%N]) by (repeat constructor).
  split_and!; [exact H1 | exact H2 |].
  rewrite (parse_ignores_surrounding_space Demo.upper_id _ _ _ H1 H2).
  reflexivity.
Defined.

(** Blanks only. *)
Lemma parse_blank_witness :
  all_space [32%N; 10%N; 0x3000%N]
  /\ _parse_llm_response Demo.upper_id [32%N; 10%N; 0x3000%N]
     = Decision (py "run_program") (PText []).
Proof.
  assert (H : all_space [32%N; 10%N; 0x3000%N]) by (repeat constructor).
  split; [exact H|]. apply (parse_blank Demo.upper_id _ H).
Defined.

(** A tool call with a tab as separator and arguments with a space. *)
Lemma parse_call_round_trip_witness :
  py "retrieve_facts" <> [] /\ no_space (py "retrieve_facts") /\ all_space [9%N]
  /\ remainder [9%N] (py "actor Tom_Hanks")
  /\ strip (py "actor Tom_Hanks") = py "actor Tom_Hanks"
  /\ _parse_llm_response Demo.upper_id
       (py "CALL " ++ py "retrieve_facts" ++ [9%N] ++ py "actor Tom_Hanks")
     = Decision (py "call_tool") (PCall (py "retrieve_facts") (py "actor Tom_Hanks")).
Proof.
  assert (H1 : py "retrieve_facts" <> []) by discriminate.
  assert (H2 : no_space (py "retrieve_facts")) by (repeat constructor).
  assert (H3 : all_space [9%N]) by (repeat constructor).
  assert (H4 : remainder [9%N] (py "actor Tom_Hanks")) by (split; [discriminate | reflexivity]).
  assert (H5 : strip (py "actor Tom_Hanks") = py "actor Tom_Hanks") by reflexivity.
  split_and!; [exact H1 | exact H2 | exact H3 | exact H4 | exact H5 |].
  apply (parse_call_round_trip Demo.upper_id _ _ _ H1 H2 H3 H4 H5).
Defined.

(** An answer announced in mixed case. *)
Lemma parse_answer_round_trip_witness :
  length (py "Answer:") = 7%nat /\ ci_startswith (py "Answer:") (py "ANSWER:") = true
  /\ _parse_llm_response Demo.upper_id (py "Answer:" ++ py "  Tom Hanks ")
     = Decision (py "answer") (PText (strip (py "  Tom Hanks "))).
Proof.
  split_and!; [reflexivity | reflexivity |].
  apply (parse_answer_round_trip Demo.upper_id (py "Answer:") (py "  Tom Hanks ")
           eq_refl eq_refl).
Defined.

(** ** More on the memory *)

(** X6. The log is append-only: after any sequence of [add], [query()]
    is what it was, followed by the added items in the order of the calls,
    and [query(key)] is what it was, followed by those of the added items
    that have the key. *)
Theorem memory_query_after_adds (m : Memory.t) (items : list pydict) (key : pystr) :
  Memory.query (fold_left Memory.add items m) None = Memory.query m None ++ items
  /\ Memory.query (fold_left Memory.add items m) (Some key)
     = Memory.query m (Some key) ++ List.filter (dict_contains key) items.
Proof.
  revert m. induction items as [|item items IH]; intros m; cbn [fold_left].
  - simpl. by rewrite !app_nil_r.
  - destruct (IH (Memory.add m item)) as [-> ->]. simpl.
    rewrite List.filter_app. simpl. rewrite <- !app_assoc.
    split; [done|]. by destruct (dict_contains key item).
Qed.

(** ** More on the toolbox *)

Section ToolboxMore.
Context {W : Type}.

(** X7. After [register(name, fn)], a call of [name], with keywords that
    do not name [self] or [name], applies [fn], whatever was bound to the
    name before; a call of any other name, whatever its keywords, does what
    it did before the registration. *)
Theorem toolbox_register_then_call (self : Toolbox.t W) (name name' : pystr)
    (fn : tool_t W) (args : list pyval) (kwargs : pydict) (e : env W) :
  (py "self" ∉ dict_keys kwargs -> py "name" ∉ dict_keys kwargs ->
   Toolbox.call (Toolbox.register self name fn) name args kwargs e
   = (fst (fn args kwargs (world e)), Toolbox.register self name fn,
      World.Build (snd (fn args kwargs (world e)))
                  (trace e ++ [EvTool name args kwargs (fst (fn args kwargs (world e)))])))
  /\ (name' <> name ->
      Toolbox.call (Toolbox.register self name fn) name' args kwargs e
      = (let '(r, _, e') := Toolbox.call self name' args kwargs e in
         (r, Toolbox.register self name fn, e'))).
Proof.
  unfold Toolbox.call, Toolbox.register. simpl. split.
  - intros Hs Hn. assert (Hc : Toolbox.clash kwargs = None) by by apply clash_none.
    rewrite Hc, lookup_insert_eq. by destruct (fn args kwargs (world e)).
  - intros Hne. destruct (Toolbox.clash kwargs); [done|].
    rewrite lookup_insert_ne by done.
    destruct (Toolbox._tools self !! name') as [fn'|]; [|done].
    by destruct (fn' args kwargs (world e)).
Qed.

(** X8. Registering twice under one name keeps the last callable only,
    and registrations under different names can be made in any order. *)
Theorem toolbox_register_twice (self : Toolbox.t W) (name name' : pystr)
    (f g : tool_t W) :
  Toolbox.register (Toolbox.register self name f) name g = Toolbox.register self name g
  /\ (name <> name' ->
      Toolbox.register (Toolbox.register self name f) name' g
      = Toolbox.register (Toolbox.register self name' g) name f).
Proof.
  unfold Toolbox.register. simpl. split.
  - by rewrite insert_insert_eq.
  - intros Hne. by rewrite insert_insert_ne.
Qed.

End ToolboxMore.

(** ** More on the loop *)

Section RunMore.
Context {W : Type}.
Variable unicode_upper : codepoint -> pystr.
Variable repr : pyval -> pystr.

Abbreviation parse := (_parse_llm_response unicode_upper).
Abbreviation body := (loop_body unicode_upper repr).
Abbreviation loop := (for_range unicode_upper repr).
Abbreviation prompt_of := (_format_prompt repr).
Abbreviation meta_of step := [(py "step", VInt step)].

(** One iteration, seen from outside. *)
Lemma loop_body_summary q step state (self : KGAgent.t W) e r s' :
  body q step state (self, e) = (r, s') ->
  exists m' lr tevs,
    s'.1 = set_memory self m'
    /\ trace s'.2 = trace e ++ EvLLM (prompt_of q state) (meta_of step) lr :: tevs
    /\ Forall (genuine self) (EvLLM (prompt_of q state) (meta_of step) lr :: tevs)
    /\ llm_calls tevs = [] /\ (length (tool_calls tevs) <= 1)%nat
    /\ match r with
       | Ok (Continue state') =>
           (exists rec, m' = Memory.add (memory self) rec)
           /\ length (steps state') = S (length (steps state))
       | Ok (Return v) => m' = Memory.add (memory self) (final_answer_record v step)
       | Ok Break => False
       | Raise ex =>
           m' = memory self
           /\ exists ev, last (EvLLM (prompt_of q state) (meta_of step) lr :: tevs)
                         = Some ev /\ raised_by ex ev
       end.
Proof.
  destruct (llm self (prompt_of q state) (meta_of step) (world e))
    as [lr w1] eqn:Hllm.
  assert (Hgen : genuine self (EvLLM (prompt_of q state) (meta_of step) lr))
    by (simpl; eauto).
  assert (Hone : Forall (genuine self) [EvLLM (prompt_of q state) (meta_of step) lr])
    by (by constructor).
  destruct lr as [response|ex].
  2:{ rewrite (loop_body_llm_raise _ _ _ _ _ _ _ _ _ Hllm). intros [= <- <-].
      exists (memory self), (Raise ex), []. rewrite set_memory_id.
      split_and!; [done | done | done | done | simpl; lia | done |].
      eexists. by split. }
  destruct (parse_cases unicode_upper response)
    as [[text Hp]|[(tool & args & Hp)|[text Hp]]].
  - rewrite (loop_body_answer _ _ _ _ _ _ _ _ _ _ Hllm Hp). intros [= <- <-].
    eexists _, (Ok response), [].
    split_and!; [done | done | done | done | simpl; lia | done].
  - destruct (Toolbox.call (toolbox self) tool [VStr args] []
                (World.Build w1 (trace e ++ [EvLLM (prompt_of q state) (meta_of step)
                                                   (Ok response)])))
      as [[tr tb] e2] eqn:Hcall.
    rewrite (loop_body_tool _ _ _ _ _ _ _ _ _ _ _ _ _ _ Hllm Hp Hcall).
    destruct (toolbox_call_cases _ _ _ _ _ _ _ Hcall)
      as [(Hnone & -> & ->)|(fn & Hfn & Hres & Htr)].
    + simpl. intros [= <- <-]. eexists _, (Ok response), []. simpl.
      split_and!; [done | done | done | done | lia | eauto |].
      rewrite length_app. simpl. lia.
    + simpl in Hres, Htr. rewrite <- app_assoc in Htr.
      assert (Hgt : genuine self (EvTool tool [VStr args] [] tr)).
      { simpl. by exists args, fn, w1, (world e2). }
      assert (Htwo : Forall (genuine self)
                       [EvLLM (prompt_of q state) (meta_of step) (Ok response);
                        EvTool tool [VStr args] [] tr])
        by (constructor; [done | by constructor]).
      destruct tr as [out|ex]; [|destruct (isinstance_Exception ex) eqn:Hex];
        intros [= <- <-]; simpl.
      * eexists _, (Ok response), [_].
        split_and!; [done | exact Htr | done | done | simpl; lia | eauto |].
        rewrite length_app. simpl. lia.
      * eexists _, (Ok response), [_].
        split_and!; [done | exact Htr | done | done | simpl; lia | eauto |].
        rewrite length_app. simpl. lia.
      * exists (memory self), (Ok response), [EvTool tool [VStr args] [] (Raise ex)].
        rewrite set_memory_id.
        split_and!; [done | exact Htr | done | done | simpl; lia | done |].
        eexists. split; [reflexivity|]. by split.
  - rewrite (loop_body_program _ _ _ _ _ _ _ _ _ _ Hllm Hp). intros [= <- <-].
    eexists _, (Ok response), []. simpl.
    split_and!; [done | done | done | done | lia | eauto |].
    rewrite length_app. simpl. lia.
Qed.

(** The loop, seen from outside: the records appended, the invocations
    made, and how they are counted. *)
Lemma for_range_inv q n step state (self : KGAgent.t W) e r s' :
  loop q n step state (self, e) = (r, s') ->
  exists added evs,
    s'.1 = set_memory self (Memory.Build (Memory._store (memory self) ++ added))
    /\ trace s'.2 = trace e ++ evs
    /\ Forall (genuine self) evs
    /\ (forall i ev, llm_calls evs !! i = Some ev ->
          exists st lr,
            ev = EvLLM (prompt_of q st) (meta_of (step + Z.of_nat i)) lr
            /\ length (steps st) = (length (steps state) + i)%nat)
    /\ (length (tool_calls evs) <= length (llm_calls evs))%nat
    /\ (length (llm_calls evs) <= n)%nat
    /\ match r with
       | Ok (Some v) =>
           length added = length (llm_calls evs)
           /\ last added
              = Some (final_answer_record v (step + Z.of_nat (length added) - 1))
       | Ok None => length added = n /\ length (llm_calls evs) = n
       | Raise ex =>
           S (length added) = length (llm_calls evs)
           /\ exists ev, last evs = Some ev /\ raised_by ex ev
       end.
Proof.
  revert step state self e r s'.
  induction n as [|n IH]; intros step state self e r s'.
  { simpl. intros [= <- <-]. exists [], []. rewrite !app_nil_r. simpl.
    split_and!; first [done | lia | by destruct self as [? ? ? [?] ?]]. }
  rewrite for_range_S. destruct (body q step state (self, e)) as [rb sb] eqn:Hb.
  destruct (loop_body_summary _ _ _ _ _ _ _ Hb)
    as (m' & lr & tevs & Hself & Htr & Hgen & Hllm & Htool & Hr).
  destruct sb as [self1 e1]. simpl in Hself, Htr. subst self1.
  set (first := EvLLM (prompt_of q state) (meta_of step) lr) in *.
  assert (Hl1 : forall l, llm_calls ((first :: tevs) ++ l) = first :: llm_calls l).
  { intros l. unfold llm_calls in *. rewrite List.filter_app. simpl. by rewrite Hllm. }
  assert (Ht1 : forall l, tool_calls ((first :: tevs) ++ l) = tool_calls tevs ++ tool_calls l).
  { intros l. unfold tool_calls. by rewrite List.filter_app. }
  assert (Hl0 : llm_calls (first :: tevs) = [first]).
  { unfold llm_calls in *. simpl. by rewrite Hllm. }
  assert (Ht0 : tool_calls (first :: tevs) = tool_calls tevs) by reflexivity.
  assert (Hfirst : forall i ev, [first] !! i = Some ev ->
            exists st lr',
              ev = EvLLM (prompt_of q st) (meta_of (step + Z.of_nat i)) lr'
              /\ length (steps st) = (length (steps state) + i)%nat).
  { intros [|i] ev Hi; simpl in Hi; [|done]. injection Hi as <-.
    exists state, lr. rewrite Z.add_0_r, Nat.add_0_r. done. }
  destruct rb as [[state'|v|]|ex].
  - destruct Hr as [[rec ->] Hlen]. intros Hloop.
    destruct (IH _ _ _ _ _ _ Hloop)
      as (added & evs' & Hs' & Htr' & Hgen' & Hmeta & Hcount & Hle & Hres).
    exists (rec :: added), ((first :: tevs) ++ evs').
    rewrite Hs', Htr', Htr, set_memory_twice, memory_set_memory, Hl1, Ht1.
    simpl. rewrite <- !app_assoc, length_app.
    split_and!; [done | done | | | lia | lia |].
    + apply (Forall_app _ (first :: tevs) evs'). split; [exact Hgen | exact Hgen'].
    + intros [|i] ev Hi; [by apply (Hfirst 0%nat)|]. simpl in Hi.
      destruct (Hmeta i ev Hi) as (st & lr' & -> & Hst). exists st, lr'.
      split; [|lia]. by replace (step + Z.of_nat (S i)) with (step + 1 + Z.of_nat i) by lia.
    + destruct r as [[v|]|ex].
      * destruct Hres as [Hlen' Hlast]. split; [lia|].
        rewrite last_cons, Hlast. do 2 f_equal. simpl length. lia.
      * lia.
      * destruct Hres as [Hlen' (ev & Hlast & Hev)]. split; [lia|].
        exists ev. split; [|done]. by rewrite app_comm_cons, last_app, Hlast.
  - subst m'. intros [= <- <-]. exists [final_answer_record v step], (first :: tevs).
    rewrite Hl0, Ht0. simpl.
    split_and!; [done | done | done | exact Hfirst | lia | lia | done |].
    do 2 f_equal. lia.
  - destruct Hr.
  - destruct Hr as [-> (ev & Hlast & Hev)]. intros [= <- <-].
    exists [], (first :: tevs).
    rewrite Hl0, Ht0. simpl. rewrite !app_nil_r.
    split_and!; [by destruct self as [? ? ? [?] ?] | done | done | exact Hfirst
                | lia | lia | done |].
    by exists ev.
Qed.

(** A run, seen from outside. *)
Lemma run_inv q (self self' : KGAgent.t W) e e' r :
  run unicode_upper repr q (self, e) = (r, (self', e')) ->
  exists added evs,
    self' = set_memory self (Memory.Build (Memory._store (memory self) ++ added))
    /\ trace e' = trace e ++ evs
    /\ Forall (genuine self) evs
    /\ (forall i ev, llm_calls evs !! i = Some ev ->
          exists st lr,
            ev = EvLLM (prompt_of q st) (meta_of (Z.of_nat i)) lr
            /\ length (steps st) = i)
    /\ (length (tool_calls evs) <= length (llm_calls evs))%nat
    /\ (length (llm_calls evs) <= Z.to_nat (max_steps self))%nat
    /\ match r with
       | Ok v =>
           (length added = length (llm_calls evs)
            /\ last added
               = Some (final_answer_record v (Z.of_nat (length added) - 1)))
           \/ (v = VStr summary /\ last added = Some timeout_record
               /\ length (llm_calls evs) = Z.to_nat (max_steps self)
               /\ length added = S (Z.to_nat (max_steps self)))
       | Raise ex =>
           S (length added) = length (llm_calls evs)
           /\ exists ev, last evs = Some ev /\ raised_by ex ev
       end.
Proof.
  rewrite run_unfold.
  destruct (loop q _ 0 _ (self, e)) as [rl [self1 e1]] eqn:Hl.
  destruct (for_range_inv _ _ _ _ _ _ _ _ Hl)
    as (added & evs & Hs & Htr & Hgen & Hmeta & Hcount & Hle & Hres).
  simpl in Hs, Htr, Hmeta. subst self1.
  destruct rl as [[v|]|ex]; intros [= <- <- <-].
  - exists added, evs. split_and!; try done. by left.
  - destruct Hres as [Hlen Hcalls].
    exists (added ++ [timeout_record]), evs.
    unfold set_memory, Memory.add. simpl.
    rewrite <- app_assoc. split_and!; try done. right.
    rewrite last_snoc, length_app. simpl. split_and!; [done | done | done | lia].
  - destruct Hres as [Hlen Hlast]. exists added, evs. split_and!; done.
Qed.

(** X9. A [call_tool] decision for a registered tool whose call returns:
    the tool is invoked once, with the raw argument text as its only
    argument, and what it returns is the [out] of the step and of the [tool]
    record that the memory holds last afterwards; the loop goes on. *)
Theorem tool_result_recorded q step state (self : KGAgent.t W) e
    response w1 tool args fn out w2 :
  llm self (prompt_of q state) (meta_of step) (world e) = (Ok response, w1) ->
  parse response = Decision (py "call_tool") (PCall tool args) ->
  Toolbox._tools (toolbox self) !! tool = Some fn ->
  fn [VStr args] [] w1 = (Ok out, w2) ->
  let state' :=
    AgentState (steps state ++ [tool_step tool out]) (memory_summary state) in
  let '(rb, (self', e')) := body q step state (self, e) in
  rb = Ok (Continue state')
  /\ Memory.query (memory self') None
     = Memory.query (memory self) None ++ [tool_record tool out step]
  /\ e' = World.Build w2
            (trace e ++ [EvLLM (prompt_of q state) (meta_of step) (Ok response);
                         EvTool tool [VStr args] [] (Ok out)])
  /\ toolbox self' = toolbox self
  /\ forall n, loop q (S n) step state (self, e) = loop q n (step + 1) state' (self', e').
Proof.
  intros Hllm Hp Hfn Hout state'.
  assert (Hcall : Toolbox.call (toolbox self) tool [VStr args] []
                    (World.Build w1 (trace e ++ [EvLLM (prompt_of q state) (meta_of step)
                                                       (Ok response)]))
                  = (Ok out, toolbox self,
                     World.Build w2
                       (trace e ++ [EvLLM (prompt_of q state) (meta_of step) (Ok response);
                                    EvTool tool [VStr args] [] (Ok out)]))).
  { unfold Toolbox.call. rewrite Hfn. simpl. rewrite Hout. by rewrite <- app_assoc. }
  pose proof (loop_body_tool _ _ _ _ _ _ _ _ _ _ _ _ _ _ Hllm Hp Hcall) as Hb.
  destruct (body q step state (self, e)) as [rb [self' e']] eqn:Hbody.
  injection Hb as -> -> ->. split_and!; try done.
  intros n. by rewrite for_range_S, Hbody.
Qed.

(** X10. A [call_tool] decision for a name that is not registered: no tool
    is invoked; the [out] of the step, and of the [tool] record that the
    memory holds last afterwards, is [{'error': str(e)}] for the [KeyError]
    of the toolbox, whose text is the [repr] of its message; the loop goes
    on. *)
Theorem missing_tool_recorded q step state (self : KGAgent.t W) e
    response w1 tool args :
  llm self (prompt_of q state) (meta_of step) (world e) = (Ok response, w1) ->
  parse response = Decision (py "call_tool") (PCall tool args) ->
  Toolbox._tools (toolbox self) !! tool = None ->
  let out := error_value (repr (VStr (py "Tool '" ++ tool ++ py "' not registered"))) in
  let state' :=
    AgentState (steps state ++ [tool_step tool out]) (memory_summary state) in
  let '(rb, (self', e')) := body q step state (self, e) in
  rb = Ok (Continue state')
  /\ Memory.query (memory self') None
     = Memory.query (memory self) None ++ [tool_record tool out step]
  /\ e' = World.Build w1
            (trace e ++ [EvLLM (prompt_of q state) (meta_of step) (Ok response)])
  /\ toolbox self' = toolbox self
  /\ forall n, loop q (S n) step state (self, e) = loop q n (step + 1) state' (self', e').
Proof.
  intros Hllm Hp Hnone out state'.
  assert (Hcall : Toolbox.call (toolbox self) tool [VStr args] []
                    (World.Build w1 (trace e ++ [EvLLM (prompt_of q state) (meta_of step)
                                                       (Ok response)]))
                  = (Raise (KeyError (py "Tool '" ++ tool ++ py "' not registered")),
                     toolbox self,
                     World.Build w1 (trace e ++ [EvLLM (prompt_of q state) (meta_of step)
                                                        (Ok response)]))).
  { unfold Toolbox.call. by rewrite Hnone. }
  pose proof (loop_body_tool _ _ _ _ _ _ _ _ _ _ _ _ _ _ Hllm Hp Hcall) as Hb.
  destruct (body q step state (self, e)) as [rb [self' e']] eqn:Hbody.
  injection Hb as -> -> ->. split_and!; try done.
  intros n. by rewrite for_range_S, Hbody.
Qed.

(** X11. The invocation of index [i] of the language model in a run gets
    the prompt made of the question and of a state with [i] steps, and the
    metadata [{'step': i}]. *)
Theorem run_llm_invocations q (self : KGAgent.t W) e :
  let '(_, (_, e')) := run unicode_upper repr q (self, e) in
  exists evs,
    trace e' = trace e ++ evs
    /\ forall i ev, llm_calls evs !! i = Some ev ->
         exists state response,
           ev = EvLLM (_format_prompt repr q state) [(py "step", VInt (Z.of_nat i))]
                      response
           /\ length (steps state) = i.
Proof.
  destruct (run _ _ _ _) as [r [self' e']] eqn:Hrun.
  destruct (run_inv _ _ _ _ _ _ Hrun) as (added & evs & _ & Htr & _ & Hmeta & _).
  by exists evs.
Qed.

(** X12. A run invokes the language model at most [max_steps] times (never,
    when [max_steps] is negative), a tool at most once per invocation of the
    language model, and appends at most one record more than it invokes the
    language model. *)
Theorem run_bounds q (self : KGAgent.t W) e :
  let '(_, (self', e')) := run unicode_upper repr q (self, e) in
  exists added evs,
    Memory._store (memory self') = Memory._store (memory self) ++ added
    /\ trace e' = trace e ++ evs
    /\ (length (llm_calls evs) <= Z.to_nat (max_steps self))%nat
    /\ (length (tool_calls evs) <= length (llm_calls evs))%nat
    /\ (length added <= S (length (llm_calls evs)))%nat.
Proof.
  destruct (run _ _ _ _) as [r [self' e']] eqn:Hrun.
  destruct (run_inv _ _ _ _ _ _ Hrun)
    as (added & evs & -> & Htr & _ & _ & Htool & Hllm & Hres).
  exists added, evs. split_and!; try done.
  destruct r as [v|ex]; [destruct Hres as [[? _]|(_ & _ & ? & ?)] | destruct Hres]; lia.
Qed.

(** X13. Every tool that a run invokes is the callable bound in the
    agent's toolbox under the name invoked, and it is invoked with one
    positional argument, a string, and no keyword argument. *)
Theorem run_tool_invocations q (self : KGAgent.t W) e :
  let '(_, (_, e')) := run unicode_upper repr q (self, e) in
  exists evs,
    trace e' = trace e ++ evs
    /\ forall name args kwargs out,
         EvTool name args kwargs out ∈ evs ->
         exists a fn w w',
           args = [VStr a] /\ kwargs = []
           /\ Toolbox._tools (toolbox self) !! name = Some fn
           /\ fn args kwargs w = (out, w').
Proof.
  destruct (run _ _ _ _) as [r [self' e']] eqn:Hrun.
  destruct (run_inv _ _ _ _ _ _ Hrun) as (added & evs & _ & Htr & Hgen & _).
  exists evs. split; [done|]. intros name args kwargs out Hin.
  rewrite Forall_forall in Hgen. apply (Hgen _ Hin).
Qed.

(** X14. When a run raises, the exception is that of its last invocation:
    the language model raised it, or a tool raised it and it is not an
    instance of [Exception].  The iteration that failed has recorded
    nothing, and no [timeout] record is written: the run has appended one
    record less than it has invoked the language model. *)
Theorem run_raise_origin q (self : KGAgent.t W) e :
  let '(r, (self', e')) := run unicode_upper repr q (self, e) in
  forall ex, r = Raise ex ->
    exists added evs ev,
      Memory._store (memory self') = Memory._store (memory self) ++ added
      /\ trace e' = trace e ++ evs
      /\ last evs = Some ev /\ raised_by ex ev
      /\ S (length added) = length (llm_calls evs).
Proof.
  destruct (run _ _ _ _) as [r [self' e']] eqn:Hrun.
  destruct (run_inv _ _ _ _ _ _ Hrun) as (added & evs & -> & Htr & _ & _ & _ & _ & Hres).
  intros ex ->. destruct Hres as [Hlen (ev & Hlast & Hev)].
  by exists added, evs, ev.
Qed.

(** X15. When the language model never raises and the registered tools
    raise instances of [Exception] only, a run returns. *)
Theorem run_returns q (self : KGAgent.t W) e :
  (forall prompt meta w ex w', llm self prompt meta w <> (Raise ex, w')) ->
  (forall name fn args kwargs w ex w',
      Toolbox._tools (toolbox self) !! name = Some fn ->
      fn args kwargs w = (Raise ex, w') -> isinstance_Exception ex = true) ->
  exists v s', run unicode_upper repr q (self, e) = (Ok v, s').
Proof.
  intros Hllm Htools.
  destruct (run _ _ _ _) as [r [self' e']] eqn:Hrun.
  destruct (run_inv _ _ _ _ _ _ Hrun) as (added & evs & _ & _ & Hgen & _ & _ & _ & Hres).
  destruct r as [v|ex]; [by eauto|]. exfalso.
  destruct Hres as [_ (ev & Hlast & Hev)].
  apply last_Some_elem_of in Hlast. rewrite Forall_forall in Hgen.
  specialize (Hgen _ Hlast). destruct ev as [p m lr|name args kwargs out]; simpl in *.
  - subst lr. destruct Hgen as (w & w' & Hcall). by apply (Hllm _ _ _ _ _ Hcall).
  - destruct Hev as [-> Hex]. destruct Hgen as (a & fn & w & w' & _ & _ & Hfn & Hcall).
    rewrite (Htools _ _ _ _ _ _ _ Hfn Hcall) in Hex. discriminate.
Qed.

(** X16. When a run returns a value, either the last record it appended
    is the [final_answer] record of this value, with the step of the last
    invocation of the language model, and it appended one record per
    invocation; or the value is the summary, the last record is the
    [timeout] record, and the run invoked the language model [max_steps]
    times and appended one record more. *)
Theorem run_return_cases q (self : KGAgent.t W) e :
  let '(r, (self', e')) := run unicode_upper repr q (self, e) in
  forall v, r = Ok v ->
    exists added evs,
      Memory._store (memory self') = Memory._store (memory self) ++ added
      /\ trace e' = trace e ++ evs
      /\ ((length added = length (llm_calls evs)
           /\ last added
              = Some (final_answer_record v (Z.of_nat (length (llm_calls evs)) - 1)))
          \/ (v = VStr summary /\ last added = Some timeout_record
              /\ length (llm_calls evs) = Z.to_nat (max_steps self)
              /\ length added = S (Z.to_nat (max_steps self)))).
Proof.
  destruct (run _ _ _ _) as [r [self' e']] eqn:Hrun.
  destruct (run_inv _ _ _ _ _ _ Hrun) as (added & evs & -> & Htr & _ & _ & _ & _ & Hres).
  intros v ->. exists added, evs. split_and!; [done | done|].
  destruct Hres as [[Hlen Hlast]|Htimeout]; [left | by right].
  by rewrite <- Hlen.
Qed.

(** X17. A run changes nothing of the agent but the memory: the language
    model, the executor, the toolbox with its registry and [max_steps] are
    the same afterwards. *)
Theorem run_frame q (self : KGAgent.t W) e :
  let '(_, (self', _)) := run unicode_upper repr q (self, e) in
  llm self' = llm self /\ executor self' = executor self
  /\ toolbox self' = toolbox self /\ max_steps self' = max_steps self.
Proof.
  destruct (run _ _ _ _) as [r [self' e']] eqn:Hrun.
  by destruct (run_inv _ _ _ _ _ _ Hrun) as (added & evs & -> & _).
Qed.

End RunMore.

(** The tool of [examples/basic.py], called by the loop. *)
Lemma tool_result_recorded_witness :
  let self := Demo.facts_agent in
  let state := AgentState [] VNone in
  let response := py "CALL retrieve_facts actor:Tom_Hanks" in
  let prompt := _format_prompt Demo.repr_stub [] state in
  let fn := Basic.retrieve_facts_stub (W := unit) (fun _ _ => []) in
  let out := VDict [(py "query", VStr (py "actor:Tom_Hanks"));
                    (py "facts", VList [VStr (py "Tom Hanks -> actor");
                                        VStr (py "Tom Hanks -> born_in Concord")])] in
  llm self prompt [(py "step", VInt 0)] (world Demo.env0) = (Ok response, tt)
  /\ _parse_llm_response Demo.upper_id response
     = Decision (py "call_tool") (PCall (py "retrieve_facts") (py "actor:Tom_Hanks"))
  /\ Toolbox._tools (toolbox self) !! py "retrieve_facts" = Some fn
  /\ fn [VStr (py "actor:Tom_Hanks")] [] tt = (Ok out, tt)
  /\ let '(rb, (self', e')) :=
       loop_body Demo.upper_id Demo.repr_stub [] 0 state (self, Demo.env0) in
     rb = Ok (Continue (AgentState [tool_step (py "retrieve_facts") out] VNone))
     /\ Memory.query (memory self') None = [tool_record (py "retrieve_facts") out 0]
     /\ tool_calls (trace e')
        = [EvTool (py "retrieve_facts") [VStr (py "actor:Tom_Hanks")] [] (Ok out)].
Proof.
  intros self state response prompt fn out.
  assert (H3 : Toolbox._tools (toolbox self) !! py "retrieve_facts" = Some fn)
    by apply lookup_insert_eq.
  split_and!; [reflexivity | reflexivity | exact H3 | reflexivity |].
  pose proof (tool_result_recorded Demo.upper_id Demo.repr_stub [] 0 state self Demo.env0
                response tt (py "retrieve_facts") (py "actor:Tom_Hanks") fn out tt
                eq_refl eq_refl H3 eq_refl) as Hbody.
  cbv zeta in Hbody. revert Hbody.
  destruct (loop_body Demo.upper_id Demo.repr_stub [] 0 state (self, Demo.env0))
    as [rb [self' e']].
  intros (Hrb & Hmem & He & _). split_and!; [exact Hrb | exact Hmem |].
  rewrite He. reflexivity.
Defined.

(** The missing tool of the spec's example. *)
Lemma missing_tool_recorded_witness :
  let self := Demo.missing_tool_agent in
  let state := AgentState [] VNone in
  let response := py "CALL missing_tool x" in
  let prompt := _format_prompt Demo.repr_stub [] state in
  let out := error_value (Demo.repr_stub (VStr (py "Tool 'missing_tool' not registered"))) in
  llm self prompt [(py "step", VInt 0)] (world Demo.env0) = (Ok response, tt)
  /\ _parse_llm_response Demo.upper_id response
     = Decision (py "call_tool") (PCall (py "missing_tool") (py "x"))
  /\ Toolbox._tools (toolbox self) !! py "missing_tool" = None
  /\ let '(rb, (self', e')) :=
       loop_body Demo.upper_id Demo.repr_stub [] 0 state (self, Demo.env0) in
     rb = Ok (Continue (AgentState [tool_step (py "missing_tool") out] VNone))
     /\ Memory.query (memory self') None = [tool_record (py "missing_tool") out 0]
     /\ tool_calls (trace e') = [].
Proof.
  intros self state response prompt out.
  assert (H3 : Toolbox._tools (toolbox self) !! py "missing_tool" = None)
    by apply lookup_empty.
  split_and!; [reflexivity | reflexivity | exact H3 |].
  pose proof (missing_tool_recorded Demo.upper_id Demo.repr_stub [] 0 state self Demo.env0
                response tt (py "missing_tool") (py "x") eq_refl eq_refl H3) as Hbody.
  cbv zeta in Hbody. revert Hbody.
  destruct (loop_body Demo.upper_id Demo.repr_stub [] 0 state (self, Demo.env0))
    as [rb [self' e']].
  intros (Hrb & Hmem & He & _). split_and!; [exact Hrb | exact Hmem |].
  rewrite He. reflexivity.
Defined.

(** The agent with the tool of [examples/basic.py] never raises. *)
Lemma run_returns_witness :
  (forall prompt meta w ex w', llm Demo.facts_agent prompt meta w <> (Raise ex, w'))
  /\ (forall name fn args kwargs w ex w',
        Toolbox._tools (toolbox Demo.facts_agent) !! name = Some fn ->
        fn args kwargs w = (Raise ex, w') -> isinstance_Exception ex = true)
  /\ exists v s',
       run Demo.upper_id Demo.repr_stub [] (Demo.facts_agent, Demo.env0) = (Ok v, s').
Proof.
  assert (H1 : forall prompt meta w ex w',
             llm Demo.facts_agent prompt meta w <> (Raise ex, w')) by done.
  assert (H2 : forall name fn args kwargs w ex w',
             Toolbox._tools (toolbox Demo.facts_agent) !! name = Some fn ->
             fn args kwargs w = (Raise ex, w') -> isinstance_Exception ex = true).
  { intros name fn args kwargs w ex w' Hfn Hcall. simpl in Hfn.
    apply lookup_insert_Some in Hfn as [[_ <-]|[_ Hfn]]; [|by rewrite lookup_empty in Hfn].
    unfold Basic.retrieve_facts_stub in Hcall.
    destruct args as [|a [|? ?]], kwargs as [|[k b] [|? ?]];
      try case_bool_decide; by simplify_eq. }
  split_and!; [exact H1 | exact H2 |].
  apply (run_returns Demo.upper_id Demo.repr_stub [] Demo.facts_agent Demo.env0 H1 H2).
Defined.

(** ** [lower] and [in] *)

Lemma contains_unfold (s p : pystr) :
  contains s p
  = startswith s p || match s with [] => false | _ :: s' => contains s' p end.
Proof. by destruct s. Qed.

Lemma contains_app (x p y : pystr) : contains (x ++ p ++ y) p = true.
Proof.
  induction x as [|c x IH].
  - rewrite contains_unfold. simpl. by rewrite startswith_self_app.
  - rewrite contains_unfold. simpl. rewrite IH. apply orb_true_r.
Qed.

Lemma contains_inv (s p : pystr) :
  contains s p = true -> exists x y, s = x ++ p ++ y.
Proof.
  induction s as [|c s IH].
  - simpl. rewrite orb_false_r. intros [r Hr]%startswith_app. by exists [], r.
  - cbn [contains]. intros [Hs|Hc]%orb_true_iff.
    + apply startswith_app in Hs as [r Hr]. by exists [], r.
    + destruct (IH Hc) as (x & y & ->). by exists (c :: x), y.
Qed.

Section LowerFacts.
Variable unicode_lower : codepoint -> pystr.
Variable final_sigma : pystr -> nat -> bool.

Abbreviation lower_in := (lower_from unicode_lower final_sigma).

Lemma lower_from_app (whole : pystr) i (x y : pystr) :
  lower_in whole i (x ++ y)
  = lower_in whole i x ++ lower_in whole (i + length x) y.
Proof.
  revert i. induction x as [|c x IH]; intros i; simpl.
  - by rewrite Nat.add_0_r.
  - rewrite IH, <- app_assoc. do 3 f_equal. lia.
Qed.

Lemma same_but_sigma_refl (l : pystr) : Forall2 same_but_sigma l l.
Proof. induction l; constructor; [by left | done]. Qed.

(** The lower-case form of a text does not depend on what is around the
    text, but for the choice between the two small sigmas. *)
Lemma lower_from_context (w1 w2 : pystr) i j (s : pystr) :
  Forall2 same_but_sigma (lower_in w1 i s) (lower_in w2 j s).
Proof.
  revert i j. induction s as [|c s IH]; intros i j; simpl; [constructor|].
  apply Forall2_app; [|apply IH]. unfold lower_char.
  destruct (c <? 0x80)%N; [apply same_but_sigma_refl|].
  destruct (c =? 0x3A3)%N; [|apply same_but_sigma_refl].
  constructor; [|constructor]. right.
  destruct (final_sigma w1 i), (final_sigma w2 j); auto.
Qed.

Lemma no_sigma_same (p p' : pystr) :
  no_sigma p -> Forall2 same_but_sigma p p' -> p' = p.
Proof.
  intros Hp H. induction H as [|c c' p p' Hc _ IH]; [done|].
  inversion Hp as [|? ? [H1 H2] Hp']; subst.
  destruct Hc as [->|[[?|?] _]]; [|done|done]. by rewrite IH.
Qed.

(** A text without sigma that occurs in the lower-case form of [q] occurs
    in the lower-case form of any text that has [q] inside. *)
Lemma contains_lower_inside (a q b p : pystr) :
  no_sigma p ->
  contains (lower unicode_lower final_sigma q) p = true ->
  contains (lower unicode_lower final_sigma (a ++ q ++ b)) p = true.
Proof.
  intros Hp [x [y Hq]]%contains_inv. unfold lower in *.
  rewrite !lower_from_app.
  pose proof (lower_from_context q (a ++ q ++ b) 0 (0 + length a) q) as H.
  rewrite Hq in H.
  apply Forall2_app_inv_l in H as (x' & r & _ & H & ->).
  apply Forall2_app_inv_l in H as (p' & y' & Hpp & _ & ->).
  rewrite (no_sigma_same _ _ Hp Hpp).
  set (la := lower_in _ 0 a). set (lb := lower_in _ _ b).
  rewrite <- !app_assoc, (app_assoc la x').
  apply (contains_app (la ++ x') p (y' ++ lb)).
Qed.

End LowerFacts.

(** ** The toy language models and [examples/basic.py] *)

Section Examples.
Context {W : Type}.
Variable unicode_upper : codepoint -> pystr.
Variable repr : pyval -> pystr.
Variable unicode_lower : codepoint -> pystr.
Variable final_sigma : pystr -> nat -> bool.
Variable call_error : list pyval -> pydict -> pystr.

Abbreviation parse := (_parse_llm_response unicode_upper).
Abbreviation body := (loop_body unicode_upper repr).
Abbreviation loop := (for_range unicode_upper repr).
Abbreviation prompt_of := (_format_prompt repr).
Abbreviation meta_of step := [(py "step", VInt step)].
Abbreviation lower_of := (lower unicode_lower final_sigma).
Abbreviation state0 := (AgentState [] VNone).

(** A run whose first response is an answer. *)
Lemma run_answer_at_first q (self : KGAgent.t W) e response w1 p :
  0 < max_steps self ->
  llm self (prompt_of q state0) (meta_of 0) (world e) = (Ok response, w1) ->
  parse response = Decision (py "answer") p ->
  run unicode_upper repr q (self, e)
  = (Ok (payload_value p),
     (set_memory self
        (Memory.add (memory self) (final_answer_record (payload_value p) 0)),
      World.Build w1 (trace e ++ [EvLLM (prompt_of q state0) (meta_of 0)
                                        (Ok response)]))).
Proof.
  intros Hmax Hllm Hp. rewrite run_unfold.
  destruct (Z.to_nat (max_steps self)) as [|n] eqn:Hn; [lia|].
  by rewrite for_range_S, (loop_body_answer _ _ _ _ _ _ _ _ _ _ Hllm Hp).
Qed.

(** The question is inside every prompt. *)
Lemma prompt_contains_question q state (p : pystr) :
  no_sigma p -> contains (lower_of q) p = true ->
  contains (lower_of (prompt_of q state)) p = true.
Proof. intros Hp Hq. unfold _format_prompt. by apply contains_lower_inside. Qed.

(** X18. The toy language model of [core.py] always returns, leaves the
    collaborators' state as it is, and is understood by the parser: its
    response is the answer ["The actor is Tom Hanks."] when the lower-case
    prompt contains ["actor"]; else, when it contains ["multi"], a call of
    [retrieve_facts] whose raw argument is the quoted text, spaces and
    quotes included; else a program. *)
Theorem dummy_llm_decisions (prompt : pystr) (metadata : pydict) (w : W) :
  exists text,
    Dummy.dummy_llm unicode_lower final_sigma prompt metadata w = (Ok text, w)
    /\ parse text
       = if contains (lower_of prompt) (py "actor") then
           Decision (py "answer") (PText (py "The actor is Tom Hanks."))
         else if contains (lower_of prompt) (py "multi") then
           Decision (py "call_tool")
                    (PCall (py "retrieve_facts")
                           ([34%N] ++ py "actor Tom Hanks" ++ [34%N]))
         else
           Decision (py "run_program")
                    (PText (py "RUN program: FIND_PATH(subject, predicate, object)")).
Proof.
  unfold Dummy.dummy_llm.
  destruct (contains (lower_of prompt) (py "actor")); [by eexists|].
  destruct (contains (lower_of prompt) (py "multi")); by eexists.
Qed.

(** X19. With the toy language model of [core.py] and a positive
    [max_steps], a question that contains ["actor"] in any case is answered
    at the first step: the run returns ["The actor is Tom Hanks."] after
    one invocation, and the memory afterwards holds one record more, the
    [final_answer] record of step 0. *)
Theorem dummy_llm_answers_actor q (self : KGAgent.t W) e :
  llm self = Dummy.dummy_llm unicode_lower final_sigma ->
  0 < max_steps self ->
  contains (lower_of q) (py "actor") = true ->
  let '(r, (self', e')) := run unicode_upper repr q (self, e) in
  r = Ok (VStr (py "The actor is Tom Hanks."))
  /\ Memory.query (memory self') None
     = Memory.query (memory self) None
       ++ [final_answer_record (VStr (py "The actor is Tom Hanks.")) 0]
  /\ e' = World.Build (world e)
            (trace e ++ [EvLLM (prompt_of q state0) (meta_of 0)
                               (Ok (py "ANSWER: The actor is Tom Hanks."))]).
Proof.
  intros Hllm Hmax Hq.
  assert (Hp : no_sigma (py "actor")) by (repeat constructor; discriminate).
  rewrite (run_answer_at_first q self e (py "ANSWER: The actor is Tom Hanks.")
             (world e) (PText (py "The actor is Tom Hanks."))); [done | done | | done].
  rewrite Hllm. unfold Dummy.dummy_llm.
  by rewrite (prompt_contains_question q state0 _ Hp Hq).
Qed.

Abbreviation basic_agent := (Basic.main_agent (W := W) unicode_lower final_sigma call_error).
Abbreviation facts_call :=
  (EvTool (py "retrieve_facts") [VStr (py "actor:Tom_Hanks")] []
          (Ok (Basic.facts (VStr (py "actor:Tom_Hanks"))))).
Abbreviation facts_record step :=
  (tool_record (py "retrieve_facts") (Basic.facts (VStr (py "actor:Tom_Hanks"))) step).

(** With a question about retrieval, every iteration of the agent of
    [examples/basic.py] calls the tool. *)
Lemma basic_loop_retrieve q n :
  contains (lower_of q) (py "retrieve") = true ->
  forall step state m (e : env W),
  exists evs,
    loop q n step state (set_memory basic_agent m, e)
    = (Ok None,
       (set_memory basic_agent
          (Memory.Build (Memory._store m
                         ++ List.map (fun i => facts_record (step + Z.of_nat i))
                                     (seq 0 n))),
        World.Build (world e) (trace e ++ evs)))
    /\ length (llm_calls evs) = n
    /\ tool_calls evs = replicate n facts_call.
Proof.
  intros Hq.
  assert (Hp : no_sigma (py "retrieve")) by (repeat constructor; discriminate).
  induction n as [|n IH]; intros step state m e.
  { exists []. simpl. rewrite !app_nil_r. by destruct m, e. }
  set (response := py "CALL retrieve_facts actor:Tom_Hanks").
  set (first := EvLLM (prompt_of q state) (meta_of step) (Ok response)).
  assert (Hllm : llm (set_memory basic_agent m) (prompt_of q state) (meta_of step)
                     (world e) = (Ok response, world e)).
  { simpl. unfold Basic.dummy_llm.
    by rewrite (prompt_contains_question q state _ Hp Hq). }
  assert (Hparse : parse response
                   = Decision (py "call_tool")
                              (PCall (py "retrieve_facts") (py "actor:Tom_Hanks")))
    by reflexivity.
  assert (Hcall : Toolbox.call (toolbox (set_memory basic_agent m)) (py "retrieve_facts")
                    [VStr (py "actor:Tom_Hanks")] []
                    (World.Build (world e) (trace e ++ [first]))
                  = (Ok (Basic.facts (VStr (py "actor:Tom_Hanks"))),
                     toolbox (set_memory basic_agent m),
                     World.Build (world e) ((trace e ++ [first]) ++ [facts_call]))).
  { unfold Toolbox.call. simpl. by rewrite lookup_insert_eq. }
  rewrite for_range_S, (loop_body_tool _ _ _ _ _ _ _ _ _ _ _ _ _ _ Hllm Hparse Hcall).
  rewrite set_memory_twice, memory_set_memory.
  destruct (IH (step + 1) (AgentState (steps state ++ [tool_step (py "retrieve_facts")
                                         (Basic.facts (VStr (py "actor:Tom_Hanks")))])
                                      (memory_summary state))
               (Memory.add m (facts_record step))
               (World.Build (world e) ((trace e ++ [first]) ++ [facts_call])))
    as (evs & -> & Hcount & Htools).
  exists (first :: facts_call :: evs). split_and!.
  - assert (Hstore : Memory._store (Memory.add m (facts_record step))
                     ++ List.map (fun i => facts_record (step + 1 + Z.of_nat i)) (seq 0 n)
                     = Memory._store m
                       ++ List.map (fun i => facts_record (step + Z.of_nat i))
                                   (seq 0 (S n))).
    { unfold Memory.add. cbn [Memory._store seq List.map]. rewrite <- app_assoc.
      f_equal. simpl. rewrite Z.add_0_r. f_equal.
      rewrite <- seq_shift, List.map_map. apply List.map_ext.
      intros i. f_equal. lia. }
    assert (Htrace : ((trace e ++ [first]) ++ [facts_call]) ++ evs
                     = trace e ++ first :: facts_call :: evs)
      by (by rewrite <- !app_assoc).
    cbn [world trace]. by rewrite Hstore, Htrace.
  - unfold llm_calls in *. simpl. by rewrite Hcount.
  - unfold tool_calls in *. simpl. by rewrite Htools.
Qed.

(** X20. The agent of [examples/basic.py] never answers a question that
    contains ["retrieve"] in any case: its ten steps each invoke the
    language model and then [retrieve_facts_stub] on ["actor:Tom_Hanks"];
    the memory afterwards holds ten [tool] records with the facts, of steps
    0 to 9, and then the [timeout] record, and the run returns the
    summary. *)
Theorem basic_retrieve_times_out q (e : env W) :
  contains (lower_of q) (py "retrieve") = true ->
  let '(r, (self', e')) := run unicode_upper repr q (basic_agent, e) in
  r = Ok (VStr summary)
  /\ Memory.query (memory self') None
     = List.map (fun i => facts_record (Z.of_nat i)) (seq 0 10) ++ [timeout_record]
  /\ world e' = world e
  /\ exists evs,
       trace e' = trace e ++ evs
       /\ length (llm_calls evs) = 10%nat
       /\ tool_calls evs = replicate 10 facts_call.
Proof.
  intros Hq.
  destruct (basic_loop_retrieve q 10 Hq 0 state0 Memory.__init__ e)
    as (evs & Hloop & Hcount & Htools).
  rewrite run_unfold. change (Z.to_nat (max_steps basic_agent)) with 10%nat.
  change (set_memory basic_agent Memory.__init__) with basic_agent in Hloop.
  rewrite Hloop. split_and!; [done | done | done |]. by exists evs.
Qed.

(** X21. The agent of [examples/basic.py] answers at once when the first
    prompt, in lower case, does not contain ["retrieve"]: the run returns
    the demo answer after one invocation of the language model, without
    calling the tool, and the memory afterwards holds one record, the
    [final_answer] record of step 0. *)
Theorem basic_answers_without_retrieve q (e : env W) :
  contains (lower_of (prompt_of q state0)) (py "retrieve") = false ->
  let '(r, (self', e')) := run unicode_upper repr q (basic_agent, e) in
  r = Ok (VStr (py "Demo answer produced by dummy LLM."))
  /\ Memory.query (memory self') None
     = [final_answer_record (VStr (py "Demo answer produced by dummy LLM.")) 0]
  /\ e' = World.Build (world e)
            (trace e ++ [EvLLM (prompt_of q state0) (meta_of 0)
                               (Ok (py "ANSWER: Demo answer produced by dummy LLM."))]).
Proof.
  intros Hq.
  rewrite (run_answer_at_first q basic_agent e
             (py "ANSWER: Demo answer produced by dummy LLM.") (world e)
             (PText (py "Demo answer produced by dummy LLM."))); [done | done | | done].
  simpl. unfold Basic.dummy_llm. by rewrite Hq.
Qed.

(** X22. [main] of [examples/basic.py], on a runtime whose [repr] of the
    initial state is the text that Python gives: the question does not
    bring the tool in, and [main] prints the demo answer and a memory of
    one record, the [final_answer] record of step 0. *)
Theorem basic_main_prints (e : env W) :
  repr (state_value state0) = py "{'steps': [], 'memory_summary': None}" ->
  Basic.main unicode_lower final_sigma call_error unicode_upper repr e
  = (Ok (py "Final answer: Demo answer produced by dummy LLM." ++ [10%N]
         ++ [10%N] ++ py "Memory contents:" ++ [10%N]
         ++ repr (VDict (final_answer_record
                           (VStr (py "Demo answer produced by dummy LLM.")) 0))
         ++ [10%N]),
     World.Build (world e)
       (trace e ++ [EvLLM (prompt_of Basic.main_question state0) (meta_of 0)
                          (Ok (py "ANSWER: Demo answer produced by dummy LLM."))])).
Proof.
  intros Hrepr. unfold Basic.main.
  assert (Hq : contains (lower_of (prompt_of Basic.main_question state0))
                        (py "retrieve") = false).
  { unfold _format_prompt. rewrite Hrepr. vm_compute. reflexivity. }
  rewrite (run_answer_at_first Basic.main_question basic_agent e
             (py "ANSWER: Demo answer produced by dummy LLM.") (world e)
             (PText (py "Demo answer produced by dummy LLM."))); [|done| |done].
  - simpl. by rewrite app_nil_r.
  - simpl. unfold Basic.dummy_llm. by rewrite Hq.
Qed.

End Examples.

(** The question of [examples/basic.py], put to the toy model of [core.py]. *)
Lemma dummy_llm_answers_actor_witness :
  llm Demo.core_agent = Dummy.dummy_llm Demo.lower_id Demo.no_final_sigma
  /\ 0 < max_steps Demo.core_agent
  /\ contains (lower Demo.lower_id Demo.no_final_sigma Basic.main_question)
              (py "actor") = true
  /\ let '(r, (self', e')) :=
       run Demo.upper_id Demo.repr_stub Basic.main_question
           (Demo.core_agent, Demo.env0) in
     r = Ok (VStr (py "The actor is Tom Hanks."))
     /\ Memory.query (memory self') None
        = [final_answer_record (VStr (py "The actor is Tom Hanks.")) 0]
     /\ length (trace e') = 1%nat.
Proof.
  split_and!; [reflexivity | reflexivity | reflexivity |].
  pose proof (dummy_llm_answers_actor Demo.upper_id Demo.repr_stub Demo.lower_id
                Demo.no_final_sigma Basic.main_question Demo.core_agent Demo.env0
                eq_refl eq_refl eq_refl) as Hrun.
  revert Hrun.
  destruct (run Demo.upper_id Demo.repr_stub Basic.main_question
                (Demo.core_agent, Demo.env0)) as [r [self' e']].
  intros (Hr & Hmem & He). split_and!; [exact Hr | exact Hmem |].
  rewrite He. reflexivity.
Defined.

(** A question about retrieval, in capitals. *)
Lemma basic_retrieve_times_out_witness :
  contains (lower Demo.lower_id Demo.no_final_sigma (py "RETRIEVE the cast"))
           (py "retrieve") = true
  /\ let '(r, (self', e')) :=
       run Demo.upper_id Demo.repr_stub (py "RETRIEVE the cast")
           (Basic.main_agent Demo.lower_id Demo.no_final_sigma Demo.no_call_error,
            Demo.env0) in
     r = Ok (VStr summary)
     /\ length (Memory.query (memory self') None) = 11%nat
     /\ last (Memory.query (memory self') None) = Some timeout_record
     /\ Memory.query (memory self') None !! 9%nat
        = Some (tool_record (py "retrieve_facts")
                            (Basic.facts (VStr (py "actor:Tom_Hanks"))) 9).
Proof.
  split; [reflexivity|].
  pose proof (basic_retrieve_times_out Demo.upper_id Demo.repr_stub Demo.lower_id
                Demo.no_final_sigma Demo.no_call_error (py "RETRIEVE the cast")
                Demo.env0 eq_refl) as Hrun.
  revert Hrun.
  destruct (run Demo.upper_id Demo.repr_stub (py "RETRIEVE the cast")
                (Basic.main_agent Demo.lower_id Demo.no_final_sigma Demo.no_call_error,
                 Demo.env0)) as [r [self' e']].
  intros (Hr & Hmem & _). rewrite Hmem. split_and!; [exact Hr | | |]; reflexivity.
Defined.

(** The question of [main]. *)
Lemma basic_answers_without_retrieve_witness :
  contains (lower Demo.lower_id Demo.no_final_sigma
              (_format_prompt Demo.repr_stub Basic.main_question (AgentState [] VNone)))
           (py "retrieve") = false
  /\ let '(r, (self', e')) :=
       run Demo.upper_id Demo.repr_stub Basic.main_question
           (Basic.main_agent Demo.lower_id Demo.no_final_sigma Demo.no_call_error,
            Demo.env0) in
     r = Ok (VStr (py "Demo answer produced by dummy LLM."))
     /\ Memory.query (memory self') None
        = [final_answer_record (VStr (py "Demo answer produced by dummy LLM.")) 0]
     /\ tool_calls (trace e') = [].
Proof.
  split; [reflexivity|].
  pose proof (basic_answers_without_retrieve Demo.upper_id Demo.repr_stub Demo.lower_id
                Demo.no_final_sigma Demo.no_call_error Basic.main_question Demo.env0
                eq_refl) as Hrun.
  revert Hrun.
  destruct (run Demo.upper_id Demo.repr_stub Basic.main_question
                (Basic.main_agent Demo.lower_id Demo.no_final_sigma Demo.no_call_error,
                 Demo.env0)) as [r [self' e']].
  intros (Hr & Hmem & He). split_and!; [exact Hr | exact Hmem |].
  rewrite He. reflexivity.
Defined.

(** [main] on the stand-in runtime. *)
Lemma basic_main_prints_witness :
  Demo.repr_initial (state_value (AgentState [] VNone))
  = py "{'steps': [], 'memory_summary': None}"
  /\ (Basic.main Demo.lower_id Demo.no_final_sigma Demo.no_call_error Demo.upper_id
                 Demo.repr_initial Demo.env0).1
     = Ok (py "Final answer: Demo answer produced by dummy LLM." ++ [10%N]
           ++ [10%N] ++ py "Memory contents:" ++ [10%N] ++ [10%N]).
Proof.
  split; [reflexivity|].
  rewrite (basic_main_prints Demo.upper_id Demo.repr_initial Demo.lower_id
             Demo.no_final_sigma Demo.no_call_error Demo.env0 eq_refl).
  reflexivity.
Defined.

(** The run that a tool interrupts. *)
Lemma run_raise_origin_witness :
  let '(r, (self', e')) :=
    run Demo.upper_id Demo.repr_stub [] (Demo.interrupted_agent, Demo.env0) in
  r = Raise (NonException (py "KeyboardInterrupt") [])
  /\ exists added evs ev,
       Memory._store (memory self')
       = Memory._store (memory Demo.interrupted_agent) ++ added
       /\ trace e' = trace Demo.env0 ++ evs
       /\ last evs = Some ev
       /\ raised_by (NonException (py "KeyboardInterrupt") []) ev
       /\ S (length added) = length (llm_calls evs).
Proof.
  pose proof (run_raise_origin Demo.upper_id Demo.repr_stub [] Demo.interrupted_agent
                Demo.env0) as H.
  destruct (run _ _ _ _) as [r [self' e']] eqn:Hrun.
  assert (Hr : r = Raise (NonException (py "KeyboardInterrupt") [])).
  { apply (f_equal fst) in Hrun. change (fst (r, (self', e'))) with r in Hrun.
    rewrite <- Hrun. vm_compute. reflexivity. }
  split; [exact Hr | exact (H _ Hr)].
Defined.

(** The run that answers at its first step. *)
Lemma run_return_cases_witness :
  let '(r, (self', e')) :=
    run Demo.upper_id Demo.repr_stub [] (Demo.answer_agent, Demo.env0) in
  r = Ok (VStr (py "demo"))
  /\ exists added evs,
       Memory._store (memory self') = Memory._store (memory Demo.answer_agent) ++ added
       /\ trace e' = trace Demo.env0 ++ evs
       /\ ((length added = length (llm_calls evs)
            /\ last added
               = Some (final_answer_record (VStr (py "demo"))
                         (Z.of_nat (length (llm_calls evs)) - 1)))
           \/ (VStr (py "demo") = VStr summary /\ last added = Some timeout_record
               /\ length (llm_calls evs) = Z.to_nat (max_steps Demo.answer_agent)
               /\ length added = S (Z.to_nat (max_steps Demo.answer_agent)))).
Proof.
  pose proof (run_return_cases Demo.upper_id Demo.repr_stub [] Demo.answer_agent
                Demo.env0) as H.
  destruct (run _ _ _ _) as [r [self' e']] eqn:Hrun.
  assert (Hr : r = Ok (VStr (py "demo"))).
  { apply (f_equal fst) in Hrun. change (fst (r, (self', e'))) with r in Hrun.
    rewrite <- Hrun. vm_compute. reflexivity. }
  split; [exact Hr | exact (H _ Hr)].
Defined.
